(** * optima-core: trace-context propagation

    A shallow embedding of the tracing core of [optima_core]
    ([tracing/ids.py], [tracing/context.py], [tracing/middleware.py],
    [http/client.py], [config/build_info.py]) together with the
    properties its specification states about it.

    Conventions.
    - A Python [str] is a Rocq [string], read as a sequence of
      characters with code points below 256 (ASCII and Latin-1, which is
      what header and identifier text is made of).
    - A Python [dict] is a [gmap]; [Optional[str]] is [option string].
    - Code that may raise returns a [result]; code that reads the clock,
      the random source or the environment, or that writes the Context
      Store or the log, is a state transformer over an explicit world. *)

From Stdlib Require Import ZArith NArith Ascii String List Lia.
From stdpp Require Import base option list strings gmap fin_maps pretty.

Local Open Scope string_scope.
Local Open Scope Z_scope.

(** ** Python values and exceptions *)

Module Py.

(** The exception classes that occur in the modelled code.  [Exception]
    is the root of everything an [except Exception] clause catches;
    [CancelledError], [KeyboardInterrupt] and [SystemExit] derive from
    [BaseException] only. *)
Inductive exc_class :=
  | ValueError | IndexError | Exception | OtherError (name : string)
  | CancelledError | KeyboardInterrupt | SystemExit.

Record exn := mk_exn { exn_class : exc_class; exn_msg : string }.

(** [isinstance(e, Exception)]. *)
Definition is_Exception (e : exn) : bool :=
  match exn_class e with
  | CancelledError | KeyboardInterrupt | SystemExit => false
  | _ => true
  end.

(** Outcome of a call: a value, or a raised exception. *)
Inductive result (A : Type) :=
  | Ok (a : A)
  | Raise (e : exn).
Arguments Ok {A} a.
Arguments Raise {A} e.

(** Sequencing: the first raised exception aborts what follows. *)
#[export] Instance result_ret : MRet result := fun A a => Ok a.
#[export] Instance result_bind : MBind result := fun A B k m =>
  match m with
  | Ok a => k a
  | Raise e => Raise e
  end.

(** [try: body  except (ValueError, IndexError): pass] followed by the
    statement [rest]: the two named classes are swallowed, anything else
    propagates. *)
Definition caught_value_index (e : exn) : bool :=
  match exn_class e with
  | ValueError | IndexError => true
  | _ => false
  end.

Definition try_except_pass {A} (body : result (option A)) (rest : result A)
  : result A :=
  match body with
  | Ok (Some a) => Ok a
  | Ok None => rest
  | Raise e => if caught_value_index e then rest else Raise e
  end.

(** Values stored in the dictionaries the code returns. *)
Inductive value :=
  | VInt (n : Z)
  | VStr (s : string)
  | VBool (b : bool).

(** Truthiness of an [Optional[str]]: [None] and the empty string are
    both falsy. *)
Definition truthy (o : option string) : bool :=
  match o with
  | Some (String _ _) => true
  | _ => false
  end.

(** [a or b] on an optional string [a] and a lazily computed string. *)
Definition or_else (a : option string) (b : string) : string :=
  match a with
  | Some (String c r) => String c r
  | _ => b
  end.

(** [parts[i]]: raises [IndexError] out of range. *)
Definition index {A} (l : list A) (i : nat) : result A :=
  match nth_error l i with
  | Some a => Ok a
  | None => Raise (mk_exn IndexError "list index out of range")
  end.

(** [s.split(sep)] for a one-character separator. *)
Fixpoint split (sep : ascii) (s : string) : list string :=
  match s with
  | EmptyString => [EmptyString]
  | String c r =>
      if Ascii.eqb c sep then EmptyString :: split sep r
      else match split sep r with
           | p :: ps => String c p :: ps
           | [] => [String c EmptyString]
           end
  end.

(** [sep.join(parts)]. *)
Fixpoint join (sep : string) (parts : list string) : string :=
  match parts with
  | [] => EmptyString
  | [p] => p
  | p :: rest => p ++ sep ++ join sep rest
  end.

(** [sep in s] for a one-character separator. *)
Fixpoint contains (sep : ascii) (s : string) : bool :=
  match s with
  | EmptyString => false
  | String c r => Ascii.eqb c sep || contains sep r
  end.

(** [s[:n]]. *)
Fixpoint take (n : nat) (s : string) : string :=
  match n, s with
  | S k, String c r => String c (take k r)
  | _, _ => EmptyString
  end.

(** *** [format(n, "x")] *)

Definition hex_char (d : N) : ascii :=
  match String.get (N.to_nat d) "0123456789abcdef" with
  | Some c => c
  | None => "0"%char
  end.

Fixpoint hex_digits (fuel : nat) (n : N) (acc : string) : string :=
  match fuel with
  | O => acc
  | S f =>
      let acc' := String (hex_char (n mod 16)) acc in
      if (n / 16 =? 0)%N then acc' else hex_digits f (n / 16) acc'
  end.

(** Lowercase hexadecimal of a natural number, no padding, ["0"] for 0. *)
Definition hex_of_N (n : N) : string :=
  hex_digits (S (N.to_nat (N.log2 n))) n EmptyString.

Definition format_x (n : Z) : string :=
  if n <? 0 then String "-" (hex_of_N (Z.abs_N n)) else hex_of_N (Z.to_N n).

(** *** [int(s, 16)] *)

(** The blanks [int] skips: tab, LF, VT, FF, CR and space ([Py_ISSPACE]),
    and the two Latin-1 blanks U+0085 and U+00A0, which [int] turns into
    spaces before it reads a text that is not pure ASCII.  Every other
    character from 128 on is no blank and no digit. *)
Definition isspace (c : ascii) : bool :=
  let n := N_of_ascii c in
  ((9 <=? n) && (n <=? 13) || (n =? 32) || (n =? 133) || (n =? 160))%N.

(** The table [_PyLong_DigitValue]: 37 for a character that is no digit
    in any base. *)
Definition DigitValue (c : ascii) : N :=
  let n := N_of_ascii c in
  (if (48 <=? n) && (n <=? 57) then n - 48
   else if (97 <=? n) && (n <=? 122) then n - 87
   else if (65 <=? n) && (n <=? 90) then n - 55
   else 37)%N.

Fixpoint lstrip (s : string) : string :=
  match s with
  | String c r => if isspace c then lstrip r else s
  | EmptyString => EmptyString
  end.

(** The digit scan of [long_from_binary_base]: digits below the base and
    single underscores between them; a doubled or trailing underscore is
    a syntax error.  Returns the value and the unread rest. *)
Fixpoint scan_digits (base : N) (prev_us : bool) (acc : N) (s : string)
  : option (N * string) :=
  match s with
  | String c r =>
      if Ascii.eqb c "_" then
        if prev_us then None else scan_digits base true acc r
      else if (DigitValue c <? base)%N then
        scan_digits base false (base * acc + DigitValue c)%N r
      else if prev_us then None else Some (acc, s)
  | EmptyString => if prev_us then None else Some (acc, EmptyString)
  end.

Definition skip_sign (s : string) : bool * string :=
  match s with
  | String c r =>
      if Ascii.eqb c "+" then (false, r)
      else if Ascii.eqb c "-" then (true, r)
      else (false, s)
  | EmptyString => (false, s)
  end.

Definition skip_prefix16 (s : string) : string :=
  match s with
  | String c (String x r) =>
      if Ascii.eqb c "0" && (Ascii.eqb x "x" || Ascii.eqb x "X") then
        match r with
        | String u r' => if Ascii.eqb u "_" then r' else r
        | EmptyString => r
        end
      else s
  | _ => s
  end.

Definition starts_with_underscore (s : string) : bool :=
  match s with
  | String c _ => Ascii.eqb c "_"
  | EmptyString => false
  end.

Definition invalid_literal (s : string) : exn :=
  mk_exn ValueError ("invalid literal for int() with base 16: " ++ s).

(** [int(s, 16)] on a [str], as [PyLong_FromUnicodeObject] and
    [PyLong_FromString] compute it: leading blanks, a sign, an optional
    [0x] prefix (one underscore allowed after it), the digits, trailing
    blanks, and nothing else. *)
Definition int16 (s : string) : result Z :=
  let (neg, s1) := skip_sign (lstrip s) in
  let s2 := skip_prefix16 s1 in
  if starts_with_underscore s2 then Raise (invalid_literal s)
  else
    match scan_digits 16 false 0%N s2 with
    | None => Raise (invalid_literal s)
    | Some (v, rest) =>
        if (String.length rest =? String.length s2)%nat
        then Raise (invalid_literal s)
        else match lstrip rest with
             | EmptyString => Ok (if neg then - Z.of_N v else Z.of_N v)
             | _ => Raise (invalid_literal s)
             end
    end.

(** [bytes.hex()]: two lowercase digits per byte. *)
Fixpoint hexlify (bs : list Byte.byte) : string :=
  match bs with
  | [] => EmptyString
  | b :: r =>
      let n := Byte.to_N b in
      String (hex_char (n / 16)) (String (hex_char (n mod 16)) (hexlify r))
  end.

End Py.

Import Py.

(** ** [optima_core/tracing/ids.py] *)

Module Ids.

(** [generate_trace_id(service_short)].  The two effects of the body are
    arguments: [now] is [int(time.time())] and [token] is the value of
    [secrets.token_bytes(6)] behind [secrets.token_hex(6)]. *)
Definition generate_trace_id (now : Z) (token : list Byte.byte)
    (service_short : string) : string :=
  let timestamp_hex := format_x now in
  let random_hex := hexlify token in
  timestamp_hex ++ "-" ++ random_hex ++ "-" ++ service_short.

(** [generate_request_id(prefix)]. *)
Definition generate_request_id (token : list Byte.byte) (prefix : string)
  : string :=
  let random_hex := hexlify token in
  prefix ++ "_" ++ random_hex.

Definition invalid_result (trace_id : string) : gmap string value :=
  {[ "valid" := VBool false; "raw" := VStr trace_id ]}.

(** The body of the [try] block: [Ok (Some d)] is [return d], [Ok None]
    is falling out of the block. *)
Definition parse_body (trace_id : string)
  : result (option (gmap string value)) :=
  let parts := split "-" trace_id in
  if (3 <=? length parts)%nat then
    timestamp_hex ← index parts 0;
    random_hex ← index parts 1;
    let service_short := join "-" (drop 2 parts) in
    timestamp ← int16 timestamp_hex;
    mret (Some ({[ "timestamp" := VInt timestamp;
                   "random" := VStr random_hex;
                   "service_short" := VStr service_short;
                   "valid" := VBool true ]} : gmap string value))
  else mret None.

(** [parse_trace_id(trace_id)]. *)
Definition parse_trace_id (trace_id : string) : result (gmap string value) :=
  try_except_pass (parse_body trace_id) (Ok (invalid_result trace_id)).

End Ids.

(** ** [optima_core/tracing/context.py] *)

Module Context.

(** The values of the three [ContextVar]s in one [contextvars.Context].
    Every variable has [default=None]. *)
Record Vars := mk_vars {
  _trace_id_var : option string;
  _request_id_var : option string;
  _parent_span_id_var : option string
}.

Definition fresh : Vars := mk_vars None None None.

(** The dataclass [TraceContext]. *)
Record TraceContext := mk_ctx {
  trace_id : option string;
  request_id : option string;
  parent_span_id : option string
}.

Definition get_trace_id (v : Vars) : option string := _trace_id_var v.
Definition get_request_id (v : Vars) : option string := _request_id_var v.
Definition get_parent_span_id (v : Vars) : option string := _parent_span_id_var v.

(** [set_trace_context(trace_id=None, request_id=None, parent_span_id=None)]:
    an argument left out is [None]. *)
Definition set_trace_context (trace_id request_id parent_span_id : option string)
    (v : Vars) : Vars :=
  let v1 := match trace_id with
            | Some t => mk_vars (Some t) (_request_id_var v) (_parent_span_id_var v)
            | None => v
            end in
  let v2 := match request_id with
            | Some r => mk_vars (_trace_id_var v1) (Some r) (_parent_span_id_var v1)
            | None => v1
            end in
  match parent_span_id with
  | Some p => mk_vars (_trace_id_var v2) (_request_id_var v2) (Some p)
  | None => v2
  end.

Definition clear_trace_context (v : Vars) : Vars :=
  let v1 := mk_vars None (_request_id_var v) (_parent_span_id_var v) in
  let v2 := mk_vars (_trace_id_var v1) None (_parent_span_id_var v1) in
  mk_vars (_trace_id_var v2) (_request_id_var v2) None.

Definition get_current_context (v : Vars) : TraceContext :=
  mk_ctx (get_trace_id v) (get_request_id v) (get_parent_span_id v).

End Context.

(** ** Logical tasks

    Each logical task (a thread, or an asyncio task multiplexed with
    others on one event loop) runs in its own [contextvars.Context]; a
    [ContextVar] read or written by a task goes to that task's context.
    A schedule is any sequence of steps, each taken by one task: the
    points between steps are the suspension points.  The creation of
    tasks is not part of the model: every task starts from the defaults,
    where a task that asyncio creates starts from a copy of its
    creator's context.  What is proved below is about tasks that write
    before they read, for which the starting context does not matter. *)

Module Tasks.

Import Context.

Abbreviation task := nat.

(** The contexts of all tasks; a task that has not written yet sees the
    defaults. *)
Abbreviation store := (gmap task Vars).

Definition vars_of (st : store) (t : task) : Vars := default fresh (st !! t).

Inductive call :=
  | CallSet (trace_id request_id parent_span_id : option string)
  | CallClear
  | CallGetTraceId.

(** One step: task [t] makes one call.  A read reports what it saw. *)
Definition step (st : store) (t : task) (c : call)
  : store * option (option string) :=
  match c with
  | CallSet a b d => (<[t := set_trace_context a b d (vars_of st t)]> st, None)
  | CallClear => (<[t := clear_trace_context (vars_of st t)]> st, None)
  | CallGetTraceId => (st, Some (get_trace_id (vars_of st t)))
  end.

(** Runs a schedule and collects every read with the task that made it. *)
Fixpoint run (st : store) (sched : list (task * call))
  : list (task * option string) :=
  match sched with
  | [] => []
  | (t, c) :: rest =>
      let (st', obs) := step st t c in
      match obs with
      | Some o => (t, o) :: run st' rest
      | None => run st' rest
      end
  end.

(** The calls one task makes, in order. *)
Definition calls_of (t : task) (sched : list (task * call)) : list call :=
  snd <$> filter (λ e, fst e = t) sched.

(** The reads one task made, in order. *)
Definition reads_of (t : task) (obs : list (task * option string))
  : list (option string) :=
  snd <$> filter (λ e, fst e = t) obs.

(** The program of the isolation scenario: set the trace id, then read
    it [n] times. *)
Definition set_then_read (x : string) (n : nat) : list call :=
  CallSet (Some x) None None :: replicate n CallGetTraceId.

End Tasks.

(** ** The world a request runs in *)

Module World.

Import Context.

Inductive level := INFO | ERROR.

(** One call on the module logger.  [exc_info] is the exception that
    [logger.exception] attaches. *)
Record LogRecord := mk_log {
  log_level : level;
  log_msg : string;
  exc_info : option exn
}.

(** What the code reads but does not own.  Clock readings are floats;
    they are kept abstract and only the two operations the code applies
    to them are named. *)
Record Env := mk_env {
  float : Type;
  time_at : nat -> float;                (* the successive values of time.time() *)
  int_of_float : float -> Z;             (* int(x) *)
  format_ms : float -> float -> string;  (* f"{(t1 - t0) * 1000:.2f}" *)
  urandom : nat -> Byte.byte;            (* the byte stream behind secrets *)
  getenv : string -> option string       (* os.getenv *)
}.

(** What the current task can change. *)
Record State := mk_state {
  vars : Vars;              (* its Context Store *)
  log : list LogRecord;     (* the records logged so far *)
  ticks : nat;              (* clock readings taken so far *)
  drawn : nat               (* random bytes drawn so far *)
}.

Definition IO (A : Type) : Type := State -> A * State.

#[export] Instance io_ret : MRet IO := fun A a st => (a, st).
#[export] Instance io_bind : MBind IO := fun A B k m st =>
  let (a, st') := m st in k a st'.

Definition with_vars (f : Vars -> Vars) : IO unit := fun st =>
  (tt, mk_state (f (vars st)) (log st) (ticks st) (drawn st)).

Definition read_vars {A} (f : Vars -> A) : IO A := fun st => (f (vars st), st).

Definition emit (r : LogRecord) : IO unit := fun st =>
  (tt, mk_state (vars st) (log st ++ [r]) (ticks st) (drawn st)).

(** [logger.info(msg)] and [logger.exception(msg)] inside an [except]
    block handling [e]. *)
Definition logger_info (msg : string) : IO unit := emit (mk_log INFO msg None).
Definition logger_exception (msg : string) (e : exn) : IO unit :=
  emit (mk_log ERROR msg (Some e)).

Section WithEnv.
Context (env : Env).

(** [time.time()]. *)
Definition time : IO (float env) := fun st =>
  (time_at env (ticks st), mk_state (vars st) (log st) (S (ticks st)) (drawn st)).

(** [secrets.token_bytes(n)]. *)
Definition token_bytes (n : nat) : IO (list Byte.byte) := fun st =>
  (urandom env <$> seq (drawn st) n,
   mk_state (vars st) (log st) (ticks st) (drawn st + n)).

(** [generate_trace_id] and [generate_request_id] with their effects. *)
Definition generate_trace_id (service_short : string) : IO string :=
  now ← time;
  token ← token_bytes 6;
  mret (Ids.generate_trace_id (int_of_float env now) token service_short).

Definition generate_request_id (prefix : string) : IO string :=
  token ← token_bytes 6;
  mret (Ids.generate_request_id token prefix).

End WithEnv.

End World.

(** ** [optima_core/config/build_info.py] *)

Module BuildInfo.

Record BuildInfo := mk_build_info {
  git_commit : string;
  git_branch : string;
  build_date : string;
  version : string
}.

(** [BuildInfo()]: every field from the environment, with its default. *)
Definition init (getenv : string -> option string) : BuildInfo :=
  mk_build_info (default "unknown" (getenv "GIT_COMMIT"))
                (default "unknown" (getenv "GIT_BRANCH"))
                (default "unknown" (getenv "BUILD_DATE"))
                (default "0.1.0" (getenv "APP_VERSION")).

Definition short_commit (b : BuildInfo) : string :=
  if truthy (Some (git_commit b)) && negb (String.eqb (git_commit b) "unknown")
  then take 7 (git_commit b)
  else "unknown".

End BuildInfo.

(** ** [optima_core/tracing/middleware.py] *)

Module Middleware.

Import Context World.

Definition TRACE_ID_HEADER := "X-Trace-ID".
Definition REQUEST_ID_HEADER := "X-Request-ID".
Definition PARENT_SPAN_ID_HEADER := "X-Parent-Span-ID".
Definition DEPLOYMENT_ID_HEADER := "X-Deployment-ID".
Definition RESPONSE_TIME_HEADER := "X-Response-Time".
Definition SERVED_BY_HEADER := "X-Served-By".

(** Header collections are dictionaries keyed by the header name as the
    constants above spell it. *)
Record Request := mk_request {
  method : string;
  path : string;                      (* request.url.path *)
  headers : gmap string string        (* request.headers *)
}.

Record Response := mk_response {
  status_code : Z;
  resp_headers : gmap string string;  (* response.headers *)
  body : string
}.

(** [response.headers[name] = value]. *)
Definition set_header (name value : string) (r : Response) : Response :=
  mk_response (status_code r) (<[name := value]> (resp_headers r)) (body r).

Record TracingMiddleware := mk_middleware {
  service_name : string;
  service_short : string;
  skip_paths : gset string;
  log_requests : bool;
  build_info : BuildInfo.BuildInfo
}.

Definition default_skip_paths : list string := ["/health"; "/"; "/favicon.ico"].

(** [TracingMiddleware.__init__]. *)
Definition init (getenv : string -> option string) (service_name : string)
    (service_short : option string) (skip_paths : option (list string))
    (log_requests : bool) : TracingMiddleware :=
  mk_middleware
    service_name
    (or_else service_short (take 4 service_name))
    (list_to_set (match skip_paths with
                  | Some (p :: ps) => p :: ps
                  | _ => default_skip_paths
                  end))
    log_requests
    (BuildInfo.init getenv).

(** The downstream handler: it may do anything to the state of the task
    it runs in, and either returns a response or raises. *)
Abbreviation handler := (Request -> IO (result Response)).

Section Dispatch.
Context (env : Env) (self : TracingMiddleware).

Definition started_msg (request : Request) : string :=
  "Request started: " ++ method request ++ " " ++ path request.

Definition completed_msg (request : Request) (response : Response)
    (duration : string) : string :=
  "Request completed: " ++ method request ++ " " ++ path request ++ " "
  ++ "status=" ++ pretty (status_code response)
  ++ " duration=" ++ duration ++ "ms".

Definition failed_msg (request : Request) (duration : string) (e : exn) : string :=
  "Request failed: " ++ method request ++ " " ++ path request ++ " "
  ++ "duration=" ++ duration ++ "ms error=" ++ exn_msg e.

(** The statements of the [try] block after [call_next] has returned
    [response]. *)
Definition on_return (request : Request) (trace_id request_id : string)
    (start_time : float env) (should_log : bool) (response : Response)
  : IO (result Response) :=
  now ← time env;
  let duration := format_ms env start_time now in
  _ ← (if should_log then logger_info (completed_msg request response duration)
       else mret tt);
  let response := set_header TRACE_ID_HEADER trace_id response in
  let response := set_header REQUEST_ID_HEADER request_id response in
  let response := set_header RESPONSE_TIME_HEADER (duration ++ "ms") response in
  let response := set_header SERVED_BY_HEADER
        (service_name self ++ "-" ++ BuildInfo.short_commit (build_info self))
        response in
  let deployment_id := getenv env "DEPLOYMENT_ID" in
  let response := match deployment_id with
                  | Some (String c r) =>
                      set_header DEPLOYMENT_ID_HEADER (String c r) response
                  | _ => response
                  end in
  mret (Ok response).

(** The header assignments of [on_return] as one expression. *)
Definition attach_headers (trace_id request_id duration : string)
    (response : Response) : Response :=
  let r4 := set_header SERVED_BY_HEADER
              (service_name self ++ "-" ++ BuildInfo.short_commit (build_info self))
              (set_header RESPONSE_TIME_HEADER (duration ++ "ms")
                 (set_header REQUEST_ID_HEADER request_id
                    (set_header TRACE_ID_HEADER trace_id response))) in
  match getenv env "DEPLOYMENT_ID" with
  | Some (String c r) => set_header DEPLOYMENT_ID_HEADER (String c r) r4
  | _ => r4
  end.

(** The [except Exception as e] block: log and re-raise. *)
Definition on_exception (request : Request) (start_time : float env) (e : exn)
  : IO (result Response) :=
  now ← time env;
  let duration := format_ms env start_time now in
  _ ← logger_exception (failed_msg request duration e) e;
  mret (Raise e).

(** The statements of [dispatch] in front of its [try]: identifiers are
    read or generated, the Context Store is written, the clock is read
    and the start of the request is logged.  Returns the local variables
    the rest of [dispatch] uses. *)
Definition bind_context (request : Request)
  : IO (string * string * float env * bool) :=
  trace_id ← match headers request !! TRACE_ID_HEADER with
             | Some (String c r) => mret (String c r)
             | _ => generate_trace_id env (service_short self)
             end;
  request_id ← generate_request_id env (service_short self);
  let parent_span_id := headers request !! PARENT_SPAN_ID_HEADER in
  _ ← with_vars (set_trace_context (Some trace_id) (Some request_id) parent_span_id);
  start_time ← time env;
  let should_log := log_requests self
                    && negb (bool_decide (path request ∈ skip_paths self)) in
  _ ← (if should_log then logger_info (started_msg request) else mret tt);
  mret (trace_id, request_id, start_time, should_log).

(** [TracingMiddleware.dispatch]: [try] / [except Exception] / [finally]
    around the call of the handler. *)
Definition dispatch (request : Request) (call_next : handler)
  : IO (result Response) :=
  '(trace_id, request_id, start_time, should_log) ← bind_context request;
  outcome ← (r ← call_next request;
             match r with
             | Ok response =>
                 on_return request trace_id request_id start_time should_log response
             | Raise e =>
                 if is_Exception e then on_exception request start_time e
                 else mret (Raise e)
             end);
  _ ← with_vars clear_trace_context;
  mret outcome.

End Dispatch.

(** [get_trace_headers()]. *)
Definition get_trace_headers (env : Env) : IO (gmap string string) :=
  let headers : gmap string string := ∅ in
  trace_id ← read_vars get_trace_id;
  let headers := match trace_id with
                 | Some (String c r) => <[TRACE_ID_HEADER := String c r]> headers
                 | _ => headers
                 end in
  request_id ← read_vars get_request_id;
  let headers := match request_id with
                 | Some (String c r) => <[PARENT_SPAN_ID_HEADER := String c r]> headers
                 | _ => headers
                 end in
  let deployment_id := getenv env "DEPLOYMENT_ID" in
  let headers := match deployment_id with
                 | Some (String c r) => <[DEPLOYMENT_ID_HEADER := String c r]> headers
                 | _ => headers
                 end in
  mret headers.

End Middleware.

(** ** [optima_core/http/client.py] *)

Module Client.

Import World Middleware.

(** [d.update(other)]: every entry of [other] is written into [d]. *)
Definition dict_update (d other : gmap string string) : gmap string string :=
  other ∪ d.

(** [TracedHttpClient._merge_headers(headers=None)]. *)
Definition _merge_headers (env : Env) (headers : option (gmap string string))
  : IO (gmap string string) :=
  trace_headers ← get_trace_headers env;
  match headers with
  | Some h =>
      if bool_decide (h = ∅) then mret trace_headers
      else mret (dict_update trace_headers h)
  | None => mret trace_headers
  end.

End Client.

(** ** Vocabulary of the specification *)

Module Spec.

(** A lowercase hexadecimal digit. *)
Definition is_hex_lower (c : ascii) : bool :=
  let n := N_of_ascii c in
  ((48 <=? n) && (n <=? 57) || (97 <=? n) && (n <=? 102))%N.

Fixpoint all_chars (P : ascii -> bool) (s : string) : bool :=
  match s with
  | EmptyString => true
  | String c r => P c && all_chars P r
  end.

(** A hexadecimal digit, in either case. *)
Definition is_hex_digit (c : ascii) : bool :=
  let n := N_of_ascii c in
  ((48 <=? n) && (n <=? 57) || (97 <=? n) && (n <=? 102)
   || (65 <=? n) && (n <=? 70))%N.

(** "Valid hexadecimal": a non-empty text of hexadecimal digits. *)
Definition valid_hex (s : string) : Prop :=
  s <> "" /\ all_chars is_hex_digit s = true.

(** One or more groups of hexadecimal digits with single underscores
    between them. *)
Inductive digit_groups : string -> Prop :=
  | groups_last d :
      is_hex_digit d = true -> digit_groups (String d "")
  | groups_digit d r :
      is_hex_digit d = true -> digit_groups r -> digit_groups (String d r)
  | groups_sep d r :
      is_hex_digit d = true -> digit_groups r ->
      digit_groups (String d (String "_" r)).

(** A text at which the digit scan stops: its end, or a character that
    is neither a digit nor an underscore. *)
Definition stops_scan (rest : string) : Prop :=
  match rest with
  | EmptyString => True
  | String c _ => Ascii.eqb c "_" = false /\ (DigitValue c <? 16)%N = false
  end.

(** A hexadecimal integer literal, by its shape: blanks, an optional
    sign, an optional [0x] or [0X] (with an optional underscore after
    it), groups of digits, blanks. *)
Definition hex_literal (s : string) : Prop :=
  exists lead sign prefix body trail,
    s = lead ++ sign ++ prefix ++ body ++ trail
    /\ all_chars isspace lead = true
    /\ (sign = "" \/ sign = "+" \/ sign = "-")
    /\ (prefix = "" \/ prefix = "0x" \/ prefix = "0X"
        \/ prefix = "0x_" \/ prefix = "0X_")
    /\ digit_groups body
    /\ all_chars isspace trail = true.

(** The separator-delimited segments of an identifier. *)
Definition segments (s : string) : list string := split "-" s.

(** [s] ends with [suffix] / starts with [prefix]. *)
Definition ends_with (s suffix : string) : Prop := exists pre, s = pre ++ suffix.
Definition starts_with (s prefix : string) : Prop := exists post, s = prefix ++ post.

(** The entry of a returned dictionary under [key], if the call returned. *)
Definition field (r : result (gmap string value)) (key : string) : option value :=
  match r with
  | Ok d => d !! key
  | Raise _ => None
  end.

End Spec.

Import Spec.

(** ** A sample deployment

    A concrete environment, middleware, requests and handlers on which
    the definitions above can be run. *)

Module Sample.

Import Context World Middleware.

(** Clock readings are whole seconds, one second apart; elapsed time is
    printed with two zero decimals. *)
Definition env_with (getenv : string -> option string) : Env :=
  mk_env Z
    (fun n => 1737034428 + Z.of_nat n)
    (fun x => x)
    (fun t0 t1 => pretty ((t1 - t0) * 1000) ++ ".00")
    (fun n => default Byte.x00 (Byte.of_N ((37 * N.of_nat n + 11) mod 256)))
    getenv.

Definition env : Env := env_with (fun _ => None).

Definition mw : TracingMiddleware :=
  Middleware.init (getenv env) "test-service" (Some "test") None true.

Definition request : Request := mk_request "GET" "/test" ∅.

Definition request_upstream : Request :=
  mk_request "GET" "/test" {[ TRACE_ID_HEADER := "upstream-trace-123" ]}.

Definition request_empty : Request :=
  mk_request "GET" "/test" {[ TRACE_ID_HEADER := "" ]}.

Definition request_error : Request := mk_request "GET" "/health" ∅.

Definition handler_ok : handler :=
  fun _ st => (Ok (mk_response 200 ∅ "ok"), st).

Definition handler_error : handler :=
  fun _ st => (Raise (mk_exn ValueError "Test error"), st).

Definition handler_cancelled : handler :=
  fun _ st => (Raise (mk_exn CancelledError ""), st).

Definition start : State := mk_state fresh [] 0 0.

(** The state in which the handler of [request_error] is called. *)
Definition at_error_handler : State :=
  mk_state (mk_vars (Some "67890abc-0b30557a9fc4-test")
                    (Some "test_e90e33587da2") None)
           [] 2 12.

(** The state in which the handler of [request_upstream] is called. *)
Definition at_upstream_handler : State :=
  mk_state (mk_vars (Some "upstream-trace-123") (Some "test_0b30557a9fc4") None)
           [mk_log INFO "Request started: GET /test" None] 1 6.

(** A task that called [set_trace_context(trace_id="")]. *)
Definition empty_trace_id : State :=
  mk_state (set_trace_context (Some "") None None fresh) [] 0 0.

End Sample.

(** ** Callers and neighbours of the tracing core *)

(** *** [optima_core/config/settings.py] *)

Module Settings.

(** [str.upper] and [str.lower] on ASCII text. *)
Definition upper_char (c : ascii) : ascii :=
  let n := N_of_ascii c in
  if ((97 <=? n) && (n <=? 122))%N then ascii_of_N (n - 32) else c.

Definition lower_char (c : ascii) : ascii :=
  let n := N_of_ascii c in
  if ((65 <=? n) && (n <=? 90))%N then ascii_of_N (n + 32) else c.

Fixpoint map_chars (f : ascii -> ascii) (s : string) : string :=
  match s with
  | EmptyString => EmptyString
  | String c r => String (f c) (map_chars f r)
  end.

Definition upper : string -> string := map_chars upper_char.
Definition lower : string -> string := map_chars lower_char.

Record Settings := mk_settings {
  environment : string;
  debug : bool;
  log_level : string;
  log_format : string;
  debug_key : option string;
  deployment_id : option string
}.

(** [Settings.from_env()]; [os.getenv(name, fallback)] gives the fallback
    only for a variable that is not set. *)
Definition from_env (getenv : string -> option string) : Settings :=
  mk_settings
    (default "development" (getenv "ENVIRONMENT"))
    (String.eqb (lower (default "false" (getenv "DEBUG"))) "true")
    (upper (default "INFO" (getenv "LOG_LEVEL")))
    (lower (default "json" (getenv "LOG_FORMAT")))
    (getenv "DEBUG_KEY")
    (getenv "DEPLOYMENT_ID").

(** [get_settings()] on the module global [_settings]: returns the
    settings and the new value of the global. *)
Definition get_settings (getenv : string -> option string)
    (_settings : option Settings) : Settings * option Settings :=
  match _settings with
  | None => let s := from_env getenv in (s, Some s)
  | Some s => (s, Some s)
  end.

(** [reset_settings()]. *)
Definition reset_settings (_settings : option Settings) : option Settings := None.

End Settings.

(** *** [optima_core/logging/config.py]: the JSON formatter *)

Module Logging.

Import Context.

Section Formatter.

(** The type of the values a [LoggerAdapter] binds as context. *)
Context {X : Type}.

(** The values of the dictionary handed to [json.dumps]. *)
Inductive jvalue :=
  | JNone
  | JStr (s : string)
  | JExc (type message : option string) (traceback : string)
  | JExtra (d : gmap string X).

Definition is_None (j : jvalue) : bool :=
  match j with
  | JNone => true
  | _ => false
  end.

Definition of_optional (o : option string) : jvalue :=
  match o with
  | Some s => JStr s
  | None => JNone
  end.

(** [record.exc_info] as the formatter uses it: the class name when the
    class is there, [str] of the exception when it is there, and the
    text [formatException] renders. *)
Record ExcInfo := mk_exc_info {
  exc_type : option string;
  exc_value : option string;
  traceback : string
}.

(** A [logging.LogRecord]; [extra_data] is [None] when the record has no
    such attribute. *)
Record LogRecord := mk_record {
  levelname : string;
  name : string;
  message : string;                       (* record.getMessage() *)
  exc_info : option ExcInfo;
  extra_data : option (gmap string X)
}.

Record JSONFormatter := mk_json_formatter {
  service_name : string;
  version : string;
  environment : string;
  git_commit : string
}.

(** [JSONFormatter.format] up to its last statement: the dictionary it
    hands to [json.dumps].  [now_iso] is
    [datetime.now(timezone.utc).isoformat()], [settings] the value of
    [get_settings()], [v] the Context Store of the logging task. *)
Definition format_log_data (self : JSONFormatter) (now_iso : string)
    (settings : Settings.Settings) (v : Vars) (record : LogRecord)
  : gmap string jvalue :=
  let log_data : gmap string jvalue :=
    {[ "timestamp" := JStr now_iso;
       "level" := JStr (levelname record);
       "service" := JStr (service_name self);
       "version" := JStr (version self);
       "environment" := JStr (environment self);
       "git_commit" := JStr (git_commit self);
       "message" := JStr (message record);
       "logger" := JStr (name record);
       "trace_id" := of_optional (get_trace_id v);
       "request_id" := of_optional (get_request_id v);
       "parent_span_id" := of_optional (get_parent_span_id v) ]} in
  let log_data :=
    match Settings.deployment_id settings with
    | Some (String c r) => <["deployment_id" := JStr (String c r)]> log_data
    | _ => log_data
    end in
  let log_data :=
    match exc_info record with
    | Some ei =>
        <["exception" := JExc (exc_type ei) (exc_value ei) (traceback ei)]> log_data
    | None => log_data
    end in
  let log_data :=
    match extra_data record with
    | Some d =>
        if bool_decide (size d = 0%nat) then log_data
        else <["extra" := JExtra d]> log_data
    | None => log_data
    end in
  filter (fun kv => is_None (snd kv) = false) log_data.

End Formatter.

Arguments jvalue X : clear implicits.
Arguments LogRecord X : clear implicits.

End Logging.

(** * Properties *)

(** ** Strings *)

Example split_examples :
  split "-" "a-b-my-service" = ["a"; "b"; "my"; "service"] /\
  split "-" "" = [""] /\ split "-" "a--" = ["a"; ""; ""] /\
  join "-" ["my"; "service"] = "my-service".
Proof. repeat split; reflexivity. Qed.

Example format_x_examples :
  format_x 0 = "0" /\ format_x 255 = "ff" /\ format_x 1737034428 = "67890abc" /\
  format_x (-5) = "-5".
Proof. repeat split; vm_compute; reflexivity. Qed.

(** The Latin-1 blanks U+00A0 and U+0085 are skipped like a space. *)
Example int16_latin1_blanks :
  int16 (String "a" (String "160" "")) = Ok 10
  /\ int16 (String "133" (String "f" (String "f" ""))) = Ok 255
  /\ (exists e, int16 (String "a" (String "233" "")) = Raise e)
  /\ field (Ids.parse_trace_id (String "a" (String "160" "-b-c"))) "valid"
     = Some (VBool true).
Proof. repeat split; try (vm_compute; reflexivity). eexists. vm_compute. reflexivity. Qed.

Example int16_examples :
  int16 "67890abc" = Ok 1737034428 /\ int16 " 0x_1F " = Ok 31 /\
  int16 "1_f" = Ok 31 /\ int16 "-a" = Ok (-10) /\
  (exists e, int16 "" = Raise e) /\ (exists e, int16 "invalid" = Raise e) /\
  (exists e, int16 "1__f" = Raise e) /\ (exists e, int16 "0x" = Raise e).
Proof. repeat split; try (vm_compute; reflexivity); eexists; vm_compute; reflexivity. Qed.

(** [String.append] does not unfold under [simpl]; its two equations are
    used as rewrite rules instead. *)
Lemma sapp_nil (b : string) : "" ++ b = b.
Proof. reflexivity. Qed.

Lemma sapp_cons c (a b : string) : String c a ++ b = String c (a ++ b).
Proof. reflexivity. Qed.

Create Rewrite HintDb sapp.
#[local] Hint Rewrite sapp_nil sapp_cons : sapp.
Ltac ssimpl := repeat (autorewrite with sapp in *; simpl in *).

Lemma string_app_assoc (a b c : string) : (a ++ b) ++ c = a ++ (b ++ c).
Proof. induction a as [|x a IH]; ssimpl; [reflexivity | now rewrite IH]. Qed.

Lemma string_app_nil_r (a : string) : a ++ "" = a.
Proof. induction a as [|x a IH]; ssimpl; [reflexivity | now rewrite IH]. Qed.

Lemma length_string_app (a b : string) :
  String.length (a ++ b) = (String.length a + String.length b)%nat.
Proof. induction a as [|x a IH]; ssimpl; [reflexivity | now rewrite IH]. Qed.

Lemma split_nonempty sep s : split sep s <> [].
Proof.
  destruct s as [|c r]; simpl; [discriminate |].
  destruct (Ascii.eqb c sep); [discriminate |].
  destruct (split sep r); discriminate.
Qed.

Lemma split_no_sep sep s : contains sep s = false -> split sep s = [s].
Proof.
  induction s as [|c r IH]; simpl; [reflexivity |].
  destruct (Ascii.eqb c sep); simpl; [discriminate |].
  intros H. now rewrite (IH H).
Qed.

Lemma split_app sep a b :
  contains sep a = false ->
  split sep (a ++ String sep b) = a :: split sep b.
Proof.
  induction a as [|c r IH]; ssimpl.
  - intros _. now rewrite Ascii.eqb_refl.
  - destruct (Ascii.eqb c sep); simpl; [discriminate |].
    intros H. now rewrite (IH H).
Qed.

Lemma join_split sep s : join (String sep "") (split sep s) = s.
Proof.
  induction s as [|c r IH]; simpl; [reflexivity |].
  destruct (Ascii.eqb c sep) eqn:E.
  - apply Ascii.eqb_eq in E. subst c.
    destruct (split sep r) as [|p ps] eqn:S; [now apply split_nonempty in S |].
    ssimpl. now rewrite IH.
  - destruct (split sep r) as [|p ps] eqn:S; [now apply split_nonempty in S |].
    destruct ps; ssimpl; now rewrite <- IH.
Qed.

Lemma contains_app sep a b :
  contains sep (a ++ b) = contains sep a || contains sep b.
Proof.
  induction a as [|c r IH]; ssimpl; [reflexivity |].
  rewrite IH. now rewrite Bool.orb_assoc.
Qed.

Lemma all_chars_app P a b :
  all_chars P (a ++ b) = all_chars P a && all_chars P b.
Proof.
  induction a as [|c r IH]; ssimpl; [reflexivity |].
  rewrite IH. now rewrite Bool.andb_assoc.
Qed.

(** What the parser sees in a lowercase hexadecimal digit. *)
Lemma hex_lower_char c :
  is_hex_lower c = true ->
  (DigitValue c < 16)%N /\ Ascii.eqb c "_" = false /\ Ascii.eqb c "-" = false
  /\ Ascii.eqb c "+" = false /\ Ascii.eqb c "x" = false
  /\ Ascii.eqb c "X" = false /\ isspace c = false.
Proof.
  destruct c as [[] [] [] [] [] [] [] []]; vm_compute; intros H;
    try discriminate H; repeat split; reflexivity.
Qed.

Lemma hex_char_spec d :
  (d < 16)%N -> is_hex_lower (hex_char d) = true /\ DigitValue (hex_char d) = d.
Proof.
  intros H. rewrite <- (N2Nat.id d).
  assert (K : (N.to_nat d < 16)%nat) by lia.
  revert K. generalize (N.to_nat d) as k. intros k K.
  do 16 (destruct k as [|k]; [vm_compute; auto |]). lia.
Qed.

Lemma no_sep_of_hex s : all_chars is_hex_lower s = true -> contains "-" s = false.
Proof.
  induction s as [|c r IH]; simpl; [reflexivity |].
  intros H. apply andb_prop in H as [Hc Hr].
  destruct (hex_lower_char c Hc) as (_ & _ & -> & _). simpl. auto.
Qed.

(** ** Hexadecimal rendering and parsing *)

Lemma hex_digits_chars fuel : forall n acc,
  all_chars is_hex_lower acc = true ->
  all_chars is_hex_lower (hex_digits fuel n acc) = true.
Proof.
  induction fuel as [|f IH]; intros n acc H; simpl; [exact H |].
  assert (A : all_chars is_hex_lower (String (hex_char (n mod 16)) acc) = true).
  { simpl. rewrite H.
    destruct (hex_char_spec (n mod 16)%N) as [-> _]; [| reflexivity].
    apply N.mod_lt. discriminate. }
  destruct (n / 16 =? 0)%N; [exact A | now apply IH].
Qed.

Lemma hex_digits_length fuel : forall n acc,
  (String.length acc <= String.length (hex_digits fuel n acc))%nat.
Proof.
  induction fuel as [|f IH]; intros n acc; simpl; [lia |].
  destruct (n / 16 =? 0)%N; simpl; [lia |].
  specialize (IH (n / 16)%N (String (hex_char (n mod 16)) acc)). simpl in IH. lia.
Qed.

Lemma scan_hex_char d a r :
  (d < 16)%N ->
  scan_digits 16 false a (String (hex_char d) r) = scan_digits 16 false (16 * a + d) r.
Proof.
  intros H. destruct (hex_char_spec d H) as [L V].
  destruct (hex_lower_char _ L) as (B & U & _).
  simpl. rewrite U, V. apply N.ltb_lt in H. now rewrite H.
Qed.

(** Scanning the digits that [hex_digits] put in front of [acc] adds the
    number they denote to the accumulator. *)
Lemma hex_digits_scan fuel : forall n acc,
  (n < 2 ^ N.of_nat fuel)%N ->
  exists k, forall a,
    scan_digits 16 false a (hex_digits fuel n acc)
    = scan_digits 16 false (a * 16 ^ k + n) acc.
Proof.
  induction fuel as [|f IH]; intros n acc Hn.
  - exists 0%N. intros a. simpl in *. f_equal. lia.
  - simpl hex_digits. destruct (n / 16 =? 0)%N eqn:E.
    + apply N.eqb_eq in E. exists 1%N. intros a.
      rewrite scan_hex_char by (apply N.mod_lt; discriminate).
      f_equal. rewrite N.pow_1_r. pose proof (N.div_mod n 16). lia.
    + assert (Hq : (n / 16 < 2 ^ N.of_nat f)%N).
      { rewrite Nat2N.inj_succ, N.pow_succ_r' in Hn.
        apply N.Div0.div_lt_upper_bound. lia. }
      destruct (IH (n / 16)%N (String (hex_char (n mod 16)) acc) Hq) as [k Hk].
      exists (N.succ k). intros a. rewrite Hk.
      rewrite scan_hex_char by (apply N.mod_lt; discriminate).
      f_equal. rewrite N.pow_succ_r'. pose proof (N.div_mod n 16). lia.
Qed.

Lemma hex_of_N_chars n : all_chars is_hex_lower (hex_of_N n) = true.
Proof. now apply hex_digits_chars. Qed.

Lemma hex_of_N_nonempty n : hex_of_N n <> "".
Proof.
  unfold hex_of_N. simpl. intros E.
  destruct (n / 16 =? 0)%N; [discriminate |].
  pose proof (hex_digits_length (N.to_nat (N.log2 n)) (n / 16)
                (String (hex_char (n mod 16)) "")) as L.
  rewrite E in L. simpl in L. lia.
Qed.

Lemma hex_of_N_scan n : scan_digits 16 false 0 (hex_of_N n) = Some (n, "").
Proof.
  unfold hex_of_N.
  destruct (hex_digits_scan (S (N.to_nat (N.log2 n))) n "") as [k Hk].
  - rewrite Nat2N.inj_succ, N2Nat.id.
    destruct n as [|p]; [reflexivity |]. apply N.log2_spec. reflexivity.
  - rewrite Hk. simpl. reflexivity.
Qed.

(** On a non-empty text of lowercase hexadecimal digits, [int(_, 16)] is
    the plain digit scan. *)
Lemma int16_hex s v :
  s <> "" -> all_chars is_hex_lower s = true ->
  scan_digits 16 false 0 s = Some (v, "") ->
  int16 s = Ok (Z.of_N v).
Proof.
  intros Hne Hall Hscan. destruct s as [|c r]; [congruence |].
  simpl in Hall. apply andb_prop in Hall as [Hc Hr].
  destruct (hex_lower_char c Hc) as (_ & U & M & P & _ & _ & W).
  assert (Hpre : skip_prefix16 (String c r) = String c r).
  { destruct r as [|x r']; [reflexivity |]. simpl in Hr.
    apply andb_prop in Hr as [Hx _].
    destruct (hex_lower_char x Hx) as (_ & _ & _ & _ & X1 & X2 & _).
    unfold skip_prefix16. now rewrite X1, X2, Bool.andb_false_r. }
  unfold int16. cbn [lstrip]. rewrite W. unfold skip_sign. rewrite P, M.
  rewrite Hpre. unfold starts_with_underscore. rewrite U, Hscan.
  reflexivity.
Qed.

Lemma int16_hex_of_N n : int16 (hex_of_N n) = Ok (Z.of_N n).
Proof.
  apply int16_hex; auto using hex_of_N_nonempty, hex_of_N_chars, hex_of_N_scan.
Qed.

(** [int(format(n, "x"), 16) == n] for a non-negative [n]. *)
Lemma int16_format_x n : 0 <= n -> int16 (format_x n) = Ok n.
Proof.
  intros H. unfold format_x.
  destruct (n <? 0) eqn:E; [apply Z.ltb_lt in E; lia |].
  rewrite int16_hex_of_N. f_equal. lia.
Qed.

Lemma format_x_no_sep n : 0 <= n -> contains "-" (format_x n) = false.
Proof.
  intros H. unfold format_x.
  destruct (n <? 0) eqn:E; [apply Z.ltb_lt in E; lia |].
  apply no_sep_of_hex, hex_of_N_chars.
Qed.

Lemma hexlify_chars bs : all_chars is_hex_lower (hexlify bs) = true.
Proof.
  induction bs as [|b r IH]; simpl; [reflexivity |].
  rewrite IH.
  assert (B : (Byte.to_N b <= 255)%N) by apply Byte.to_N_bounded.
  destruct (hex_char_spec (Byte.to_N b / 16)%N) as [-> _];
    [apply N.Div0.div_lt_upper_bound; lia |].
  destruct (hex_char_spec (Byte.to_N b mod 16)%N) as [-> _];
    [apply N.mod_lt; discriminate |].
  reflexivity.
Qed.

Lemma hexlify_length bs : String.length (hexlify bs) = (2 * length bs)%nat.
Proof. induction bs as [|b r IH]; simpl; [reflexivity | rewrite IH; lia]. Qed.

(** ** Identifiers ([ids.py]) *)

Lemma int16_raises_ValueError s e : int16 s = Raise e -> e = invalid_literal s.
Proof.
  unfold int16. destruct (skip_sign (lstrip s)) as [neg s1].
  destruct (starts_with_underscore _); [congruence |].
  destruct (scan_digits _ _ _ _) as [[v rest]|]; [| congruence].
  destruct (_ =? _)%nat; [congruence |].
  destruct (lstrip rest); congruence.
Qed.

(** The two outcomes of [parse_trace_id], by the shape of the input. *)
Lemma parse_trace_id_short raw :
  (length (segments raw) < 3)%nat ->
  Ids.parse_trace_id raw = Ok (Ids.invalid_result raw).
Proof.
  intros H. unfold Ids.parse_trace_id, Ids.parse_body. fold (segments raw).
  destruct (3 <=? length (segments raw))%nat eqn:E; [| reflexivity].
  apply Nat.leb_le in E. lia.
Qed.

Lemma parse_trace_id_long raw p0 p1 rest :
  segments raw = p0 :: p1 :: rest -> rest <> [] ->
  Ids.parse_trace_id raw =
    match int16 p0 with
    | Ok timestamp =>
        Ok {[ "timestamp" := VInt timestamp; "random" := VStr p1;
              "service_short" := VStr (join "-" rest); "valid" := VBool true ]}
    | Raise _ => Ok (Ids.invalid_result raw)
    end.
Proof.
  intros S R. unfold Ids.parse_trace_id, Ids.parse_body. fold (segments raw).
  rewrite S. destruct rest as [|p2 rest]; [congruence |].
  cbn [length Nat.leb index nth_error mbind result_bind drop].
  destruct (int16 p0) as [ts|e] eqn:E; [reflexivity |].
  apply int16_raises_ValueError in E. subst e. reflexivity.
Qed.

Lemma segments_generated now token s :
  0 <= now ->
  segments (Ids.generate_trace_id now token s)
  = format_x now :: hexlify token :: segments s.
Proof.
  intros H. unfold segments, Ids.generate_trace_id.
  autorewrite with sapp.
  rewrite split_app by now apply format_x_no_sep.
  rewrite split_app by apply no_sep_of_hex, hexlify_chars.
  reflexivity.
Qed.

(** Parsing a generated identifier gives back what went into it, also
    when the service-short itself contains the separator. *)
Lemma parse_generated now token s :
  0 <= now ->
  Ids.parse_trace_id (Ids.generate_trace_id now token s)
  = Ok {[ "timestamp" := VInt now; "random" := VStr (hexlify token);
          "service_short" := VStr s; "valid" := VBool true ]}.
Proof.
  intros H.
  rewrite (parse_trace_id_long _ _ _ _ (segments_generated now token s H))
    by apply split_nonempty.
  rewrite int16_format_x by assumption.
  unfold segments. now rewrite join_split.
Qed.

Lemma invalid_result_fields raw :
  Ids.invalid_result raw !! "valid" = Some (VBool false)
  /\ Ids.invalid_result raw !! "raw" = Some (VStr raw).
Proof. split; reflexivity. Qed.

(** *** The texts [int(_, 16)] accepts *)

Lemma hex_digit_char c :
  is_hex_digit c = true ->
  (DigitValue c <? 16)%N = true /\ Ascii.eqb c "_" = false
  /\ Ascii.eqb c "+" = false /\ Ascii.eqb c "-" = false
  /\ Ascii.eqb c "x" = false /\ Ascii.eqb c "X" = false /\ isspace c = false.
Proof.
  destruct c as [[] [] [] [] [] [] [] []]; vm_compute; intros H;
    try discriminate H; repeat split; reflexivity.
Qed.

Lemma digit_is_hex c :
  Ascii.eqb c "_" = false -> (DigitValue c <? 16)%N = true -> is_hex_digit c = true.
Proof.
  destruct c as [[] [] [] [] [] [] [] []]; vm_compute; intros H1 H2;
    try discriminate; reflexivity.
Qed.

Lemma blank_char c :
  isspace c = true ->
  (DigitValue c <? 16)%N = false /\ Ascii.eqb c "_" = false
  /\ Ascii.eqb c "x" = false /\ Ascii.eqb c "X" = false.
Proof.
  destruct c as [[] [] [] [] [] [] [] []]; vm_compute; intros H;
    try discriminate H; repeat split; reflexivity.
Qed.

Lemma lstrip_app_blank lead x :
  all_chars isspace lead = true -> lstrip (lead ++ x) = lstrip x.
Proof.
  induction lead as [|c r IH]; ssimpl; [reflexivity |].
  intros H. apply andb_prop in H as [Hc Hr]. rewrite Hc. auto.
Qed.

Lemma lstrip_all_blank t : all_chars isspace t = true -> lstrip t = "".
Proof.
  induction t as [|c r IH]; simpl; [reflexivity |].
  intros H. apply andb_prop in H as [Hc Hr]. rewrite Hc. auto.
Qed.

Lemma lstrip_decomp s :
  exists lead, s = lead ++ lstrip s /\ all_chars isspace lead = true.
Proof.
  induction s as [|c r (lead & E & B)]; [now exists "" |].
  simpl. destruct (isspace c) eqn:Hc.
  - exists (String c lead). ssimpl. rewrite Hc. split; [now f_equal | assumption].
  - now exists "".
Qed.

Lemma lstrip_empty_blank s : lstrip s = "" -> all_chars isspace s = true.
Proof.
  induction s as [|c r IH]; simpl; [reflexivity |].
  destruct (isspace c); [auto | discriminate].
Qed.

Lemma digit_groups_head b :
  digit_groups b -> exists d r, b = String d r /\ is_hex_digit d = true.
Proof. intros [d H | d r H _ | d r H _]; eauto. Qed.

(** A digit is read the same way whether an underscore came before it
    or not. *)
Lemma scan_digit_any_prev prev a d x :
  is_hex_digit d = true ->
  scan_digits 16 prev a (String d x)
  = scan_digits 16 false (16 * a + DigitValue d) x.
Proof.
  intros H. destruct (hex_digit_char d H) as (D & U & _). simpl. now rewrite U, D.
Qed.

Lemma blank_stops_scan t : all_chars isspace t = true -> stops_scan t.
Proof.
  destruct t as [|c r]; simpl; [trivial |].
  intros H. apply andb_prop in H as [Hc _].
  destruct (blank_char c Hc) as (D & U & _). auto.
Qed.

(** The scan reads groups of digits to their end. *)
Lemma scan_groups b :
  digit_groups b ->
  forall a rest, stops_scan rest ->
    exists v, scan_digits 16 false a (b ++ rest) = Some (v, rest).
Proof.
  induction 1 as [d H | d r H G IH | d r H G IH]; intros a rest S;
    autorewrite with sapp; rewrite scan_digit_any_prev by assumption.
  - destruct rest as [|c x]; simpl; [eauto |].
    simpl in S. destruct S as [U D]. rewrite U, D. eauto.
  - now apply IH.
  - destruct (digit_groups_head r G) as (d' & r' & -> & H').
    change (scan_digits 16 false (16 * a + DigitValue d) (String "_" (String d' r' ++ rest)))
      with (scan_digits 16 true (16 * a + DigitValue d) (String d' r' ++ rest)).
    specialize (IH (16 * a + DigitValue d)%N rest S).
    autorewrite with sapp in *.
    rewrite scan_digit_any_prev in IH |- * by assumption. exact IH.
Qed.

(** What the scan has read when it stops. *)
Lemma scan_decomp s :
  forall prev a v rest,
    scan_digits 16 prev a s = Some (v, rest) ->
    exists body,
      s = body ++ rest
      /\ (digit_groups body
          \/ prev = false
             /\ (body = "" \/ exists b, body = String "_" b /\ digit_groups b)).
Proof.
  induction s as [|c r IH]; intros prev a v rest H; simpl in H.
  - destruct prev; [discriminate |]. injection H as <- <-.
    exists "". split; [reflexivity | right; auto].
  - destruct (Ascii.eqb c "_") eqn:U.
    + apply Ascii.eqb_eq in U. subst c. destruct prev; [discriminate |].
      destruct (IH _ _ _ _ H) as (body & -> & [G | [F _]]); [| discriminate].
      exists (String "_" body). ssimpl. split; [reflexivity |]. right. eauto.
    + destruct (DigitValue c <? 16)%N eqn:D.
      * pose proof (digit_is_hex c U D) as Hd.
        destruct (IH _ _ _ _ H) as (body & -> & [G | [_ [-> | (b & -> & G)]]]).
        -- exists (String c body). ssimpl. split; [reflexivity |].
           left. now apply groups_digit.
        -- exists (String c ""). ssimpl. split; [reflexivity |].
           left. now apply groups_last.
        -- exists (String c (String "_" b)). ssimpl. split; [reflexivity |].
           left. now apply groups_sep.
      * destruct prev; [discriminate |]. injection H as <- <-.
        exists "". split; [reflexivity | right; auto].
Qed.

Lemma skip_prefix16_groups b trail :
  digit_groups b -> all_chars isspace trail = true ->
  skip_prefix16 (b ++ trail) = b ++ trail.
Proof.
  intros G T.
  assert (K : forall c x, Ascii.eqb x "x" || Ascii.eqb x "X" = false ->
              Ascii.eqb c "0" && (Ascii.eqb x "x" || Ascii.eqb x "X") = false)
    by (intros c x ->; apply Bool.andb_false_r).
  destruct G as [d H | d r H G | d r H G]; autorewrite with sapp.
  - destruct trail as [|c x]; [reflexivity |]. cbn [all_chars] in T.
    apply andb_prop in T as [Tc _]. destruct (blank_char c Tc) as (_ & _ & X1 & X2).
    unfold skip_prefix16. rewrite K; [reflexivity | now rewrite X1, X2].
  - destruct (digit_groups_head r G) as (d' & r' & -> & H'). autorewrite with sapp.
    destruct (hex_digit_char d' H') as (_ & _ & _ & _ & X1 & X2 & _).
    unfold skip_prefix16. rewrite K; [reflexivity | now rewrite X1, X2].
  - unfold skip_prefix16. rewrite K; reflexivity.
Qed.

Lemma skip_prefix16_decomp x :
  exists prefix,
    x = prefix ++ skip_prefix16 x
    /\ (prefix = "" \/ prefix = "0x" \/ prefix = "0X"
        \/ prefix = "0x_" \/ prefix = "0X_").
Proof.
  destruct x as [|c [|y r]]; try (exists ""; split; [reflexivity | auto]).
  unfold skip_prefix16.
  destruct (Ascii.eqb c "0") eqn:C; [| exists ""; split; [reflexivity | auto]].
  apply Ascii.eqb_eq in C. subst c.
  destruct (Ascii.eqb y "x") eqn:Y1; [apply Ascii.eqb_eq in Y1; subst y |
    destruct (Ascii.eqb y "X") eqn:Y2; [apply Ascii.eqb_eq in Y2; subst y |
      exists ""; split; [reflexivity | auto]]]; cbn [andb orb].
  - destruct r as [|u r']; [exists "0x"; split; [reflexivity | auto] |].
    destruct (Ascii.eqb u "_") eqn:U.
    + apply Ascii.eqb_eq in U. subst u. exists "0x_". split; [reflexivity | auto 6].
    + exists "0x". split; [reflexivity | auto].
  - destruct r as [|u r']; [exists "0X"; split; [reflexivity | auto] |].
    destruct (Ascii.eqb u "_") eqn:U.
    + apply Ascii.eqb_eq in U. subst u. exists "0X_". split; [reflexivity | auto 6].
    + exists "0X". split; [reflexivity | auto].
Qed.

Lemma skip_sign_decomp x :
  exists sign,
    x = sign ++ snd (skip_sign x) /\ (sign = "" \/ sign = "+" \/ sign = "-").
Proof.
  destruct x as [|c r]; [exists ""; split; [reflexivity | auto] |].
  unfold skip_sign. destruct (Ascii.eqb c "+") eqn:P.
  - apply Ascii.eqb_eq in P. subst c. exists "+". split; [reflexivity | auto].
  - destruct (Ascii.eqb c "-") eqn:M.
    + apply Ascii.eqb_eq in M. subst c. exists "-". split; [reflexivity | auto].
    + exists "". split; [reflexivity | auto].
Qed.

Lemma int16_core s neg s1 v rest :
  skip_sign (lstrip s) = (neg, s1) ->
  starts_with_underscore (skip_prefix16 s1) = false ->
  scan_digits 16 false 0 (skip_prefix16 s1) = Some (v, rest) ->
  String.length rest <> String.length (skip_prefix16 s1) ->
  lstrip rest = "" ->
  int16 s = Ok (if neg then - Z.of_N v else Z.of_N v).
Proof.
  intros Hs Hu Hscan Hlen Ht. unfold int16. rewrite Hs, Hu, Hscan, Ht.
  apply Nat.eqb_neq in Hlen. now rewrite Hlen.
Qed.

(** What follows the sign of a literal: its first character and what
    is left once the prefix is skipped. *)
Lemma after_sign prefix body trail :
  (prefix = "" \/ prefix = "0x" \/ prefix = "0X"
   \/ prefix = "0x_" \/ prefix = "0X_") ->
  digit_groups body -> all_chars isspace trail = true ->
  skip_prefix16 (prefix ++ body ++ trail) = body ++ trail
  /\ exists c r, prefix ++ body ++ trail = String c r
                 /\ isspace c = false /\ Ascii.eqb c "+" = false
                 /\ Ascii.eqb c "-" = false.
Proof.
  intros Pf G T.
  destruct (digit_groups_head body G) as (d & r & Eb & Hd).
  destruct (hex_digit_char d Hd) as (_ & U & P & M & _ & _ & W).
  pose proof (skip_prefix16_groups body trail G T) as SP.
  rewrite Eb in *. autorewrite with sapp in *.
  destruct Pf as [-> | [-> | [-> | [-> | ->]]]]; autorewrite with sapp.
  - split; [exact SP | eauto 10].
  - split; [unfold skip_prefix16; simpl; now rewrite U | eauto 10].
  - split; [unfold skip_prefix16; simpl; now rewrite U | eauto 10].
  - split; [reflexivity | eauto 10].
  - split; [reflexivity | eauto 10].
Qed.

(** [int(_, 16)] reads a text exactly when the text has the shape of a
    hexadecimal literal. *)
Lemma int16_accepts_literal s : hex_literal s -> exists n, int16 s = Ok n.
Proof.
  intros (lead & sign & prefix & body & trail & -> & L & Sg & Pf & G & T).
  destruct (after_sign prefix body trail Pf G T) as (SP & c & r & Ey & W & P & M).
  destruct (digit_groups_head body G) as (d & r' & Eb & Hd).
  destruct (hex_digit_char d Hd) as (_ & U & _).
  destruct (scan_groups body G 0%N trail (blank_stops_scan trail T)) as [v Hv].
  assert (Len : String.length trail <> String.length (body ++ trail))
    by (rewrite length_string_app, Eb; simpl; lia).
  assert (Us : starts_with_underscore (body ++ trail) = false)
    by (rewrite Eb; autorewrite with sapp; exact U).
  assert (Hs : exists neg, skip_sign (lstrip (lead ++ sign ++ prefix ++ body ++ trail))
                           = (neg, prefix ++ body ++ trail)).
  { rewrite lstrip_app_blank by assumption.
    destruct Sg as [-> | [-> | ->]]; autorewrite with sapp.
    - rewrite Ey. cbn [lstrip]. rewrite W. unfold skip_sign. rewrite P, M. eauto.
    - exists false. reflexivity.
    - exists true. reflexivity. }
  destruct Hs as [neg Hs]. eexists.
  apply (int16_core _ neg _ v trail Hs); rewrite ?SP; auto using lstrip_all_blank.
Qed.

Lemma int16_literal_of_accepted s n : int16 s = Ok n -> hex_literal s.
Proof.
  unfold int16. intros H.
  destruct (lstrip_decomp s) as (lead & Es & L).
  destruct (skip_sign_decomp (lstrip s)) as (sign & Ex & Sg).
  destruct (skip_sign (lstrip s)) as [neg s1]. cbn [snd] in Ex.
  destruct (skip_prefix16_decomp s1) as (prefix & E1 & Pf).
  destruct (starts_with_underscore (skip_prefix16 s1)) eqn:U; [discriminate |].
  destruct (scan_digits 16 false 0 (skip_prefix16 s1)) as [[v rest]|] eqn:Sc;
    [| discriminate].
  destruct (String.length rest =? String.length (skip_prefix16 s1))%nat eqn:Len;
    [discriminate |].
  destruct (lstrip rest) eqn:T; [| discriminate].
  destruct (scan_decomp _ _ _ _ _ Sc) as (body & Eb & G).
  assert (G' : digit_groups body).
  { destruct G as [G | [_ [-> | (b & -> & _)]]]; [exact G | |].
    - ssimpl. rewrite Eb, Nat.eqb_refl in Len. discriminate.
    - rewrite Eb in U. ssimpl. discriminate. }
  exists lead, sign, prefix, body, rest.
  split; [now rewrite Es at 1; rewrite Ex, E1 at 1; rewrite Eb at 1 |].
  split; [exact L |]. split; [exact Sg |]. split; [exact Pf |].
  split; [exact G' | now apply lstrip_empty_blank].
Qed.

Lemma int16_accepts_iff s : (exists n, int16 s = Ok n) <-> hex_literal s.
Proof.
  split; [intros [n H]; exact (int16_literal_of_accepted s n H)
         | apply int16_accepts_literal].
Qed.

(** Plain hexadecimal is among the literals. *)
Lemma valid_hex_literal s : valid_hex s -> hex_literal s.
Proof.
  intros [Hne Hall]. exists "", "", "", s, "".
  rewrite string_app_nil_r. repeat split; auto.
  induction s as [|c r IH]; [congruence |].
  simpl in Hall. apply andb_prop in Hall as [Hc Hr].
  destruct r as [|c' r']; [now constructor |].
  apply groups_digit; [exact Hc |]. apply IH; [discriminate | exact Hr].
Qed.

(** C5 (amended).  [parse_trace_id] returns for every input text and
    never raises.  Its result carries [valid = False] together with the
    input under ["raw"] exactly when the input has fewer than three
    ["-"]-delimited segments or its first segment is no hexadecimal
    literal as [int(_, 16)] reads one: blanks, an optional sign, an
    optional [0x], groups of digits with single underscores between
    them, blanks.  Otherwise it carries [valid = True] and, as
    service-short, all segments after the first two joined again, as
    for ["a-b-my-service"].  A first segment of plain hexadecimal
    digits is always accepted. *)
Theorem parse_trace_id_never_raises (raw : string) :
  let r := Ids.parse_trace_id raw in
  let rejected :=
    (length (segments raw) < 3)%nat \/ ~ hex_literal (hd "" (segments raw)) in
  (exists d, r = Ok d)
  /\ (field r "valid" = Some (VBool false) /\ field r "raw" = Some (VStr raw)
      <-> rejected)
  /\ (~ rejected ->
      field r "valid" = Some (VBool true)
      /\ field r "random" = nth_error (VStr <$> segments raw) 1
      /\ field r "service_short"
         = Some (VStr (join "-" (drop 2 (segments raw)))))
  /\ ((3 <= length (segments raw))%nat -> valid_hex (hd "" (segments raw)) ->
      field r "valid" = Some (VBool true))
  /\ Ids.parse_trace_id "a-b-my-service"
     = Ok {[ "timestamp" := VInt 10; "random" := VStr "b";
             "service_short" := VStr "my-service"; "valid" := VBool true ]}.
Proof.
  cbv zeta.
  setoid_rewrite <- int16_accepts_iff.
  assert (V : valid_hex (hd "" (segments raw)) ->
              exists n, int16 (hd "" (segments raw)) = Ok n)
    by (intros H; now apply int16_accepts_literal, valid_hex_literal).
  destruct (Nat.lt_ge_cases (length (segments raw)) 3) as [Hshort | Hlong].
  - rewrite (parse_trace_id_short raw Hshort).
    split; [eauto |]. split; [| split; [| split; [| reflexivity]]].
    + split; [auto | intros _; apply invalid_result_fields].
    + intros H. exfalso. apply H. now left.
    + intros H. lia.
  - destruct (segments raw) as [|p0 [|p1 [|p2 rest]]] eqn:S;
      simpl in Hlong; try lia.
    rewrite (parse_trace_id_long raw p0 p1 (p2 :: rest) S) by discriminate.
    cbn [hd] in *. destruct (int16 p0) as [ts|e] eqn:E.
    + split; [eauto |]. split; [| split; [| split; [| reflexivity]]].
      * split.
        -- intros [H _]. discriminate H.
        -- intros [H | H]; [simpl in H; lia |].
           exfalso. apply H. exists ts. reflexivity.
      * intros _. repeat split; reflexivity.
      * reflexivity.
    + split; [eauto |]. split; [| split; [| split; [| reflexivity]]].
      * split; [| intros _; apply invalid_result_fields].
        intros _. right. intros [n Hn]. congruence.
      * intros H. exfalso. apply H. right. intros [n Hn]. congruence.
      * intros _ Hv. destruct (V Hv) as [n Hn]. congruence.
Qed.

(** C6.  Round trip.  For a service-short [s] without the separator, the
    identifier [generate_trace_id(s)] produces (at a clock that has not
    gone below the epoch) has exactly three segments, and parsing it
    returns [valid = True], the integer timestamp that was read, the
    twelve lowercase hexadecimal characters that were drawn, and [s]. *)
Theorem generate_parse_roundtrip (env : World.Env) (st : World.State) (s : string) :
  let now := World.int_of_float env (World.time_at env (World.ticks st)) in
  let id := fst (World.generate_trace_id env s st) in
  contains "-" s = false ->
  0 <= now ->
  exists random,
    segments id = [format_x now; random; s]
    /\ length (segments id) = 3%nat
    /\ String.length random = 12%nat
    /\ all_chars is_hex_lower random = true
    /\ Ids.parse_trace_id id
       = Ok {[ "timestamp" := VInt now; "random" := VStr random;
               "service_short" := VStr s; "valid" := VBool true ]}.
Proof.
  cbv zeta. intros Hs Hnow.
  set (token := World.urandom env <$> seq (World.drawn st) 6).
  assert (Hid : fst (World.generate_trace_id env s st)
                = Ids.generate_trace_id
                    (World.int_of_float env (World.time_at env (World.ticks st)))
                    token s) by reflexivity.
  rewrite Hid. exists (hexlify token).
  rewrite segments_generated by assumption.
  unfold segments at 1 2. rewrite (split_no_sep _ _ Hs).
  split; [reflexivity |]. split; [reflexivity |].
  split; [| split].
  - rewrite hexlify_length. unfold token. now rewrite length_fmap, length_seq.
  - apply hexlify_chars.
  - now apply parse_generated.
Qed.

(** C7.  Timestamp monotonicity.  For identifiers generated at clock
    readings [t1 <= t2] (seconds since the epoch), the timestamps that
    [parse_trace_id] decodes are the readings themselves, hence ordered
    the same way. *)
Theorem decoded_timestamp_monotone (t1 t2 : Z) (token1 token2 : list Byte.byte)
    (s1 s2 : string) :
  0 <= t1 -> t1 <= t2 ->
  exists ts1 ts2,
    field (Ids.parse_trace_id (Ids.generate_trace_id t1 token1 s1)) "timestamp"
      = Some (VInt ts1)
    /\ field (Ids.parse_trace_id (Ids.generate_trace_id t2 token2 s2)) "timestamp"
      = Some (VInt ts2)
    /\ ts1 = t1 /\ ts2 = t2 /\ ts1 <= ts2.
Proof.
  intros H1 H12. exists t1, t2.
  rewrite !parse_generated by lia.
  split; [reflexivity |]. split; [reflexivity |]. auto.
Qed.

(** ** The Context Store ([context.py]) *)

Section ContextStore.
Import Context.

Lemma clear_trace_context_empty v :
  get_current_context (clear_trace_context v) = mk_ctx None None None.
Proof. reflexivity. Qed.

(** C8.  Frame property of [set_trace_context].  A field whose argument
    carries a value (is not [None]) takes that value; a field whose
    argument is left out (is [None]) keeps the value it had; with all
    three arguments left out the store is unchanged. *)
Theorem set_trace_context_partial_update (v : Vars)
    (trace_id request_id parent_span_id : option string) :
  let v' := set_trace_context trace_id request_id parent_span_id v in
  get_trace_id v' = from_option Some (get_trace_id v) trace_id
  /\ get_request_id v' = from_option Some (get_request_id v) request_id
  /\ get_parent_span_id v' = from_option Some (get_parent_span_id v) parent_span_id
  /\ (trace_id = None -> get_trace_id v' = get_trace_id v)
  /\ (request_id = None -> get_request_id v' = get_request_id v)
  /\ (parent_span_id = None -> get_parent_span_id v' = get_parent_span_id v)
  /\ set_trace_context None None None v = v.
Proof.
  destruct v as [a b c], trace_id, request_id, parent_span_id;
    cbv zeta; repeat split; intros; try discriminate; reflexivity.
Qed.

End ContextStore.

(** ** Isolation of logical tasks *)

Section Isolation.
Import Context Tasks.

Lemma vars_of_insert_ne (st : store) (t a : task) (v : Vars) :
  t <> a -> vars_of (<[t := v]> st) a = vars_of st a.
Proof. intros H. unfold vars_of. now rewrite lookup_insert_ne. Qed.

Lemma vars_of_insert_eq (st : store) (a : task) (v : Vars) :
  vars_of (<[a := v]> st) a = v.
Proof. unfold vars_of. now rewrite lookup_insert_eq. Qed.

(** A step of another task leaves the context of [a] as it was. *)
Lemma step_other (st : store) (t a : task) (c : call) :
  t <> a -> vars_of (fst (step st t c)) a = vars_of st a.
Proof.
  intros H. destruct c; simpl; auto using vars_of_insert_ne.
Qed.

Lemma calls_of_cons_eq a c sched :
  calls_of a ((a, c) :: sched) = c :: calls_of a sched.
Proof. unfold calls_of. now rewrite filter_cons_True. Qed.

Lemma calls_of_cons_ne a t c sched :
  t <> a -> calls_of a ((t, c) :: sched) = calls_of a sched.
Proof. intros H. unfold calls_of. now rewrite filter_cons_False. Qed.

Lemma reads_of_cons_eq a o obs :
  reads_of a ((a, o) :: obs) = o :: reads_of a obs.
Proof. unfold reads_of. now rewrite filter_cons_True. Qed.

Lemma reads_of_cons_ne a t o obs :
  t <> a -> reads_of a ((t, o) :: obs) = reads_of a obs.
Proof. intros H. unfold reads_of. now rewrite filter_cons_False. Qed.

(** Once [a] holds [x] and only reads from then on, every one of its
    reads sees [x], whatever the other tasks do in between. *)
Lemma reads_while_others_run (a : task) (x : option string) :
  forall (sched : list (task * call)) (st : store) (n : nat),
    get_trace_id (vars_of st a) = x ->
    calls_of a sched = replicate n CallGetTraceId ->
    reads_of a (run st sched) = replicate n x.
Proof.
  induction sched as [|[t c] sched IH]; intros st n Hx Hc.
  - destruct n; [reflexivity | discriminate].
  - destruct (decide (t = a)) as [-> | Hne].
    + rewrite calls_of_cons_eq in Hc. destruct n as [|n]; [discriminate |].
      simpl in Hc. injection Hc as -> Hc. simpl.
      rewrite reads_of_cons_eq, Hx. f_equal. now apply IH.
    + rewrite calls_of_cons_ne in Hc by assumption.
      pose proof (step_other st t a c Hne) as Hs.
      simpl. destruct (step st t c) as [st' [o|]]; simpl in Hs.
      * rewrite reads_of_cons_ne by assumption. apply IH; congruence.
      * apply IH; congruence.
Qed.

Lemma set_then_read_isolated (a : task) (x : string) :
  forall (sched : list (task * call)) (st : store) (n : nat),
    calls_of a sched = set_then_read x n ->
    reads_of a (run st sched) = replicate n (Some x).
Proof.
  induction sched as [|[t c] sched IH]; intros st n Hc; [discriminate |].
  destruct (decide (t = a)) as [-> | Hne].
  - rewrite calls_of_cons_eq in Hc. injection Hc as -> Hc. simpl.
    apply reads_while_others_run; [| assumption].
    now rewrite vars_of_insert_eq.
  - rewrite calls_of_cons_ne in Hc by assumption.
    simpl. destruct (step st t c) as [st' [o|]].
    + rewrite reads_of_cons_ne by assumption. now apply IH.
    + now apply IH.
Qed.

(** C1.  Isolation.  Task [A] sets trace id [X] and then reads [n]
    times, task [B] sets [Y] and then reads [m] times.  In every
    schedule that interleaves the two (and any further tasks, step by
    step on one thread), from every starting store, all reads of [A] see
    [X] and all reads of [B] see [Y].  This holds for any two tasks and
    any two identifiers, distinct ones in particular. *)
Theorem context_isolation (st : store) (sched : list (task * call))
    (A B : task) (X Y : string) (n m : nat) :
  calls_of A sched = set_then_read X n ->
  calls_of B sched = set_then_read Y m ->
  reads_of A (run st sched) = replicate n (Some X)
  /\ reads_of B (run st sched) = replicate m (Some Y).
Proof.
  intros HA HB. split; now apply set_then_read_isolated.
Qed.

End Isolation.

(** ** The request lifecycle ([middleware.py]) *)

Section Lifecycle.
Import Context World Middleware.
Context (env : Env) (self : TracingMiddleware).

Lemma generated_trace_id_suffix service_short st :
  ends_with (fst (World.generate_trace_id env service_short st))
            ("-" ++ service_short).
Proof.
  unfold ends_with.
  exists (format_x (int_of_float env (time_at env (ticks st))) ++ "-"
          ++ hexlify (urandom env <$> seq (drawn st) 6)).
  change (fst (World.generate_trace_id env service_short st))
    with (Ids.generate_trace_id (int_of_float env (time_at env (ticks st)))
            (urandom env <$> seq (drawn st) 6) service_short).
  unfold Ids.generate_trace_id. now rewrite !string_app_assoc.
Qed.

Lemma generated_trace_id_nonempty service_short st :
  fst (World.generate_trace_id env service_short st) <> "".
Proof.
  destruct (generated_trace_id_suffix service_short st) as [pre ->].
  intros E. apply (f_equal String.length) in E.
  rewrite !length_string_app in E. simpl in E. lia.
Qed.

Lemma generated_request_id_prefix prefix st :
  starts_with (fst (World.generate_request_id env prefix st)) (prefix ++ "_").
Proof.
  exists (hexlify (urandom env <$> seq (drawn st) 6)).
  change (fst (World.generate_request_id env prefix st))
    with (Ids.generate_request_id (urandom env <$> seq (drawn st) 6) prefix).
  unfold Ids.generate_request_id. now rewrite string_app_assoc.
Qed.

(** What the statements in front of the [try] leave behind. *)
Lemma bind_context_spec request st trace_id request_id start_time should_log st0 :
  bind_context env self request st
    = ((trace_id, request_id, start_time, should_log), st0) ->
  let inbound := headers request !! TRACE_ID_HEADER in
  let st_id := if truthy inbound then st
               else snd (World.generate_trace_id env (service_short self) st) in
  trace_id = or_else inbound
               (fst (World.generate_trace_id env (service_short self) st))
  /\ request_id = fst (World.generate_request_id env (service_short self) st_id)
  /\ vars st0 = set_trace_context (Some trace_id) (Some request_id)
                  (headers request !! PARENT_SPAN_ID_HEADER) (vars st)
  /\ should_log = log_requests self
                  && negb (bool_decide (path request ∈ skip_paths self)).
Proof.
  unfold bind_context. intros H. cbv zeta.
  destruct (headers request !! TRACE_ID_HEADER) as [[|c r]|];
    unfold mbind, io_bind in H; simpl in H;
    destruct (log_requests self && _); simpl in H;
    injection H as <- <- <- <- <-; repeat split; reflexivity.
Qed.

(** The exception path of [dispatch]. *)
Lemma dispatch_raise request call_next st trace_id request_id start_time
    should_log st0 e st1 :
  bind_context env self request st
    = ((trace_id, request_id, start_time, should_log), st0) ->
  call_next request st0 = (Raise e, st1) ->
  dispatch env self request call_next st
  = (Raise e,
     mk_state (clear_trace_context (vars st1))
       (if is_Exception e
        then log st1 ++ [mk_log ERROR
               (failed_msg request
                  (format_ms env start_time (time_at env (ticks st1))) e)
               (Some e)]
        else log st1)
       (if is_Exception e then S (ticks st1) else ticks st1)
       (drawn st1)).
Proof.
  intros Hb Hc. unfold dispatch.
  unfold mbind at 1. unfold io_bind at 1. rewrite Hb.
  unfold mbind, io_bind. rewrite Hc.
  destruct (is_Exception e); reflexivity.
Qed.

(** The normal path of [dispatch]. *)
Lemma dispatch_return request call_next st trace_id request_id start_time
    should_log st0 response st1 :
  bind_context env self request st
    = ((trace_id, request_id, start_time, should_log), st0) ->
  call_next request st0 = (Ok response, st1) ->
  let duration := format_ms env start_time (time_at env (ticks st1)) in
  dispatch env self request call_next st
  = (Ok (attach_headers env self trace_id request_id duration response),
     mk_state (clear_trace_context (vars st1))
       (if should_log
        then log st1 ++ [mk_log INFO (completed_msg request response duration) None]
        else log st1)
       (S (ticks st1))
       (drawn st1)).
Proof.
  intros Hb Hc. unfold dispatch.
  unfold mbind at 1. unfold io_bind at 1. rewrite Hb.
  unfold mbind, io_bind. rewrite Hc.
  unfold on_return, attach_headers, mbind, io_bind.
  destruct should_log; simpl;
    destruct (getenv env "DEPLOYMENT_ID") as [[|c r]|]; reflexivity.
Qed.

Lemma attach_headers_map trace_id request_id duration response :
  resp_headers (attach_headers env self trace_id request_id duration response)
  = let h4 := <[SERVED_BY_HEADER :=
                  service_name self ++ "-" ++ BuildInfo.short_commit (build_info self)]>
              (<[RESPONSE_TIME_HEADER := duration ++ "ms"]>
                 (<[REQUEST_ID_HEADER := request_id]>
                    (<[TRACE_ID_HEADER := trace_id]> (resp_headers response)))) in
    if truthy (getenv env "DEPLOYMENT_ID")
    then <[DEPLOYMENT_ID_HEADER := default "" (getenv env "DEPLOYMENT_ID")]> h4
    else h4.
Proof.
  unfold attach_headers.
  destruct (getenv env "DEPLOYMENT_ID") as [[|c r]|]; reflexivity.
Qed.

(** C2 (amended).  If the handler raises [e], whatever [e] is,
    [dispatch] raises [e] itself, and the Context Store of the task is
    empty when it does.  If [e] is an instance of [Exception], which is
    what the [except] clause names, a ["Request failed: ..."] record
    carrying [e] is the last record logged, whatever the skip set and
    the logging flag say.  If [e] is no instance of [Exception] (a
    cancellation, an interrupt), nothing is logged for it. *)
Theorem dispatch_reraises_and_clears (request : Request) (call_next : handler)
    (st st0 st1 : State) (trace_id request_id : string)
    (start_time : float env) (should_log : bool) (e : exn) :
  bind_context env self request st
    = ((trace_id, request_id, start_time, should_log), st0) ->
  call_next request st0 = (Raise e, st1) ->
  exists final,
    dispatch env self request call_next st = (Raise e, final)
    /\ get_current_context (vars final) = mk_ctx None None None
    /\ (is_Exception e = true ->
        exists duration,
          log final
          = (log st1 ++ [mk_log ERROR (failed_msg request duration e) (Some e)])%list
          /\ starts_with (failed_msg request duration e) "Request failed: ")
    /\ (is_Exception e = false -> log final = log st1).
Proof.
  intros Hb Hc. eexists. split; [exact (dispatch_raise _ _ _ _ _ _ _ _ _ _ Hb Hc) |].
  split; [reflexivity |]. cbn [log]. split; intros He; rewrite He.
  - eexists. split; [reflexivity |].
    unfold failed_msg, starts_with. eexists. reflexivity.
  - reflexivity.
Qed.

(** What is raised but is no [Exception] (a cancellation, an interrupt)
    passes through the [finally] only: re-raised, store cleared, nothing
    logged. *)
Lemma dispatch_base_exception_not_logged (request : Request) (call_next : handler)
    (st st0 st1 : State) (trace_id request_id : string)
    (start_time : float env) (should_log : bool) (e : exn) :
  bind_context env self request st
    = ((trace_id, request_id, start_time, should_log), st0) ->
  call_next request st0 = (Raise e, st1) ->
  is_Exception e = false ->
  dispatch env self request call_next st
  = (Raise e, mk_state (clear_trace_context (vars st1)) (log st1) (ticks st1)
                (drawn st1)).
Proof.
  intros Hb Hc He. rewrite (dispatch_raise _ _ _ _ _ _ _ _ _ _ Hb Hc).
  now rewrite He.
Qed.

(** C4 (amended).  If the handler returns, [dispatch] returns its
    response with these headers set: [X-Trace-ID] is the inbound
    [X-Trace-ID] value when one is present and not the empty string, and
    otherwise (header absent or empty) the identifier [generate_trace_id]
    makes, which ends in ["-" ++ service_short]; [X-Request-ID] is the
    identifier [generate_request_id] makes, which starts with
    [service_short ++ "_"]; [X-Response-Time] is the formatted elapsed
    time followed by ["ms"]; [X-Served-By] is the service name, ["-"] and
    the short commit; [X-Deployment-ID] is written only for a non-empty
    [DEPLOYMENT_ID] and is otherwise as the handler left it. *)
Theorem dispatch_response_headers (request : Request) (call_next : handler)
    (st st0 st1 : State) (trace_id request_id : string)
    (start_time : float env) (should_log : bool) (response : Response) :
  bind_context env self request st
    = ((trace_id, request_id, start_time, should_log), st0) ->
  call_next request st0 = (Ok response, st1) ->
  exists response' final,
    dispatch env self request call_next st = (Ok response', final)
    /\ resp_headers response' !! TRACE_ID_HEADER = Some trace_id
    /\ (forall v, headers request !! TRACE_ID_HEADER = Some v -> v <> "" ->
         trace_id = v)
    /\ (headers request !! TRACE_ID_HEADER = None
        \/ headers request !! TRACE_ID_HEADER = Some "" ->
        trace_id = fst (World.generate_trace_id env (service_short self) st)
        /\ ends_with trace_id ("-" ++ service_short self))
    /\ resp_headers response' !! REQUEST_ID_HEADER = Some request_id
    /\ (exists st_id,
         request_id = fst (World.generate_request_id env (service_short self) st_id))
    /\ starts_with request_id (service_short self ++ "_")
    /\ (exists t0 t1,
         resp_headers response' !! RESPONSE_TIME_HEADER
         = Some (format_ms env t0 t1 ++ "ms"))
    /\ resp_headers response' !! SERVED_BY_HEADER
       = Some (service_name self ++ "-" ++ BuildInfo.short_commit (build_info self))
    /\ (forall d, getenv env "DEPLOYMENT_ID" = Some d -> d <> "" ->
         resp_headers response' !! DEPLOYMENT_ID_HEADER = Some d)
    /\ (getenv env "DEPLOYMENT_ID" = None \/ getenv env "DEPLOYMENT_ID" = Some "" ->
        resp_headers response' !! DEPLOYMENT_ID_HEADER
        = resp_headers response !! DEPLOYMENT_ID_HEADER).
Proof.
  intros Hb Hc.
  destruct (bind_context_spec _ _ _ _ _ _ _ Hb) as (Ht & Hr & _ & _).
  cbv zeta in Ht, Hr.
  eexists _, _. split; [exact (dispatch_return _ _ _ _ _ _ _ _ _ _ Hb Hc) |].
  rewrite attach_headers_map. cbv zeta.
  assert (Hdep : forall (h : gmap string string) k, k <> DEPLOYMENT_ID_HEADER ->
    (if truthy (getenv env "DEPLOYMENT_ID")
     then <[DEPLOYMENT_ID_HEADER := default "" (getenv env "DEPLOYMENT_ID")]> h
     else h) !! k = h !! k).
  { intros h k Hk. destruct (truthy (getenv env "DEPLOYMENT_ID")); [| reflexivity].
    now rewrite lookup_insert_ne. }
  repeat match goal with |- _ /\ _ => split end.
  - rewrite Hdep by discriminate.
    rewrite !lookup_insert_ne by discriminate. apply lookup_insert_eq.
  - intros v Hv Hne. rewrite Ht, Hv. destruct v; [congruence | reflexivity].
  - intros Hin. assert (E : trace_id
        = fst (World.generate_trace_id env (service_short self) st)).
    { rewrite Ht. destruct Hin as [-> | ->]; reflexivity. }
    split; [exact E |]. rewrite E. apply generated_trace_id_suffix.
  - rewrite Hdep by discriminate.
    rewrite !lookup_insert_ne by discriminate. apply lookup_insert_eq.
  - eexists. exact Hr.
  - rewrite Hr. apply generated_request_id_prefix.
  - eexists _, _. rewrite Hdep by discriminate.
    rewrite !lookup_insert_ne by discriminate. apply lookup_insert_eq.
  - rewrite Hdep by discriminate. apply lookup_insert_eq.
  - intros d Hd Hne. rewrite Hd. destruct d; [congruence |]. apply lookup_insert_eq.
  - intros Hd. assert (E : truthy (getenv env "DEPLOYMENT_ID") = false)
      by (destruct Hd as [-> | ->]; reflexivity).
    rewrite E. now rewrite !lookup_insert_ne by discriminate.
Qed.

(** C10.  An inbound [X-Trace-ID] header that is present but empty is
    handled like a missing one: the statements in front of the handler
    do exactly what they do for the request without that header, the
    trace id is the non-empty identifier [generate_trace_id] makes, it is
    what the Context Store holds while the handler runs, and it is what
    a response carries in [X-Trace-ID]. *)
Theorem empty_inbound_trace_id_regenerated (request : Request) (st : State) :
  headers request !! TRACE_ID_HEADER = Some "" ->
  let absent := mk_request (method request) (path request)
                  (delete TRACE_ID_HEADER (headers request)) in
  let generated := fst (World.generate_trace_id env (service_short self) st) in
  bind_context env self request st = bind_context env self absent st
  /\ generated <> ""
  /\ ends_with generated ("-" ++ service_short self)
  /\ get_trace_id (vars (snd (bind_context env self request st))) = Some generated
  /\ forall (call_next : handler) response st1,
       call_next request (snd (bind_context env self request st)) = (Ok response, st1) ->
       exists response' final,
         dispatch env self request call_next st = (Ok response', final)
         /\ resp_headers response' !! TRACE_ID_HEADER = Some generated
         /\ resp_headers response' !! TRACE_ID_HEADER <> Some "".
Proof.
  intros Hin. cbv zeta.
  destruct (bind_context env self request st) as [[[[tid rid] t0] sl] st0] eqn:Hb.
  destruct (bind_context_spec _ _ _ _ _ _ _ Hb) as (Ht & Hr & Hv & _).
  cbv zeta in Ht, Hr. rewrite Hin in Ht. cbn [or_else] in Ht.
  pose proof (generated_trace_id_nonempty (service_short self) st) as Hne.
  split; [| split; [exact Hne | split; [apply generated_trace_id_suffix | split]]].
  - rewrite <- Hb. unfold bind_context. cbn [headers path method].
    rewrite lookup_delete_eq, Hin.
    rewrite lookup_delete_ne by discriminate. reflexivity.
  - cbn [snd]. rewrite Hv, <- Ht.
    destruct (headers request !! PARENT_SPAN_ID_HEADER); reflexivity.
  - intros call_next response st1 Hc. cbn [snd] in Hc.
    eexists _, _. split; [exact (dispatch_return _ _ _ _ _ _ _ _ _ _ Hb Hc) |].
    assert (L : resp_headers (attach_headers env self tid rid
                  (format_ms env t0 (time_at env (ticks st1))) response)
                !! TRACE_ID_HEADER = Some tid).
    { rewrite attach_headers_map. cbv zeta.
      destruct (truthy (getenv env "DEPLOYMENT_ID"));
        rewrite !lookup_insert_ne by discriminate; apply lookup_insert_eq. }
    rewrite L, Ht. split; [reflexivity | congruence].
Qed.

End Lifecycle.

(** ** Outbound headers ([get_trace_headers], [_merge_headers]) *)

Section Outbound.
Import Context World Middleware Client.
Context (env : Env).

(** [get_trace_headers] reads and does not write. *)
Lemma get_trace_headers_read_only st : snd (get_trace_headers env st) = st.
Proof. reflexivity. Qed.

(** The dictionary [get_trace_headers] builds, insert by insert. *)
Lemma get_trace_headers_map st :
  fst (get_trace_headers env st)
  = let h0 : gmap string string := ∅ in
    let h1 := if truthy (get_trace_id (vars st))
              then <[TRACE_ID_HEADER := default "" (get_trace_id (vars st))]> h0
              else h0 in
    let h2 := if truthy (get_request_id (vars st))
              then <[PARENT_SPAN_ID_HEADER := default "" (get_request_id (vars st))]> h1
              else h1 in
    if truthy (getenv env "DEPLOYMENT_ID")
    then <[DEPLOYMENT_ID_HEADER := default "" (getenv env "DEPLOYMENT_ID")]> h2
    else h2.
Proof.
  unfold get_trace_headers, mbind, io_bind, read_vars. cbn [fst].
  destruct (get_trace_id (vars st)) as [[|c1 r1]|];
    destruct (get_request_id (vars st)) as [[|c2 r2]|];
    destruct (getenv env "DEPLOYMENT_ID") as [[|c3 r3]|]; reflexivity.
Qed.

Lemma truthy_Some (o : option string) v :
  o = Some v /\ v <> "" <-> truthy o = true /\ default "" o = v.
Proof.
  destruct o as [[|c r]|]; simpl; intuition congruence.
Qed.

Lemma truthy_default_nonempty (o : option string) :
  truthy o = true -> default "" o <> "".
Proof. destruct o as [[|c r]|]; simpl; congruence. Qed.

(** C3 (amended).  [get_trace_headers] returns exactly these entries:
    [X-Trace-ID] with the trace id when the store holds a non-empty
    trace id, [X-Parent-Span-ID] with the request id when the store
    holds a non-empty request id, [X-Deployment-ID] when [DEPLOYMENT_ID]
    is set to a non-empty value; nothing else, and never an empty
    value.  With no context set the result is empty, or holds the
    deployment header alone.  The store is left as it was. *)
Theorem get_trace_headers_contents (st : State) :
  let h := fst (get_trace_headers env st) in
  (forall v, h !! TRACE_ID_HEADER = Some v
             <-> get_trace_id (vars st) = Some v /\ v <> "")
  /\ (forall v, h !! PARENT_SPAN_ID_HEADER = Some v
                <-> get_request_id (vars st) = Some v /\ v <> "")
  /\ (forall v, h !! DEPLOYMENT_ID_HEADER = Some v
                <-> getenv env "DEPLOYMENT_ID" = Some v /\ v <> "")
  /\ (forall k, k <> TRACE_ID_HEADER -> k <> PARENT_SPAN_ID_HEADER ->
                k <> DEPLOYMENT_ID_HEADER -> h !! k = None)
  /\ (forall k, h !! k <> Some "")
  /\ (get_trace_id (vars st) = None -> get_request_id (vars st) = None ->
      h = if truthy (getenv env "DEPLOYMENT_ID")
          then {[ DEPLOYMENT_ID_HEADER := default "" (getenv env "DEPLOYMENT_ID") ]}
          else ∅)
  /\ snd (get_trace_headers env st) = st.
Proof.
  cbv zeta. rewrite get_trace_headers_map. cbv zeta.
  set (t := get_trace_id (vars st)). set (r := get_request_id (vars st)).
  set (d := getenv env "DEPLOYMENT_ID").
  pose proof (truthy_default_nonempty t) as Nt.
  pose proof (truthy_default_nonempty r) as Nr.
  pose proof (truthy_default_nonempty d) as Nd.
  repeat match goal with |- _ /\ _ => split end.
  - intros v. rewrite truthy_Some.
    destruct (truthy t), (truthy r), (truthy d);
      rewrite ?lookup_insert_ne by discriminate;
      rewrite ?lookup_insert_eq, ?lookup_empty; intuition congruence.
  - intros v. rewrite truthy_Some.
    destruct (truthy t), (truthy r), (truthy d);
      rewrite ?lookup_insert_ne by discriminate;
      rewrite ?lookup_insert_eq, ?lookup_insert_ne by discriminate;
      rewrite ?lookup_empty; intuition congruence.
  - intros v. rewrite truthy_Some.
    destruct (truthy t), (truthy r), (truthy d);
      rewrite ?lookup_insert_eq, ?lookup_insert_ne by discriminate;
      rewrite ?lookup_insert_ne by discriminate;
      rewrite ?lookup_empty; intuition congruence.
  - intros k K1 K2 K3.
    destruct (truthy t), (truthy r), (truthy d);
      rewrite ?lookup_insert_ne by congruence; apply lookup_empty.
  - intros k.
    destruct (truthy t), (truthy r), (truthy d);
      rewrite ?lookup_insert; repeat case_decide;
      rewrite ?lookup_empty; intuition congruence.
  - intros -> ->. reflexivity.
  - reflexivity.
Qed.

Lemma merge_headers_union st (caller : gmap string string) :
  fst (_merge_headers env (Some caller) st)
  = caller ∪ fst (get_trace_headers env st).
Proof.
  unfold _merge_headers, mbind, io_bind.
  destruct (get_trace_headers env st) as [trace st'].
  case_bool_decide as E; cbn [fst]; [| reflexivity].
  subst caller. now rewrite (left_id_L ∅ (∪)).
Qed.

(** C9.  Header merge.  The merged headers hold every caller-supplied
    entry with the caller's value, every trace header whose name the
    caller did not use with the value [get_trace_headers] gave it, and
    no other name; so on a collision the caller's value wins.  Without
    caller headers the result is the trace headers. *)
Theorem merge_headers_caller_wins (st : State) (caller : gmap string string) :
  let trace := fst (get_trace_headers env st) in
  let merged := fst (_merge_headers env (Some caller) st) in
  (forall k v, caller !! k = Some v -> merged !! k = Some v)
  /\ (forall k, caller !! k = None -> merged !! k = trace !! k)
  /\ (forall k, is_Some (trace !! k) -> is_Some (merged !! k))
  /\ dom merged = dom trace ∪ dom caller
  /\ fst (_merge_headers env None st) = trace.
Proof.
  cbv zeta. rewrite merge_headers_union.
  repeat match goal with |- _ /\ _ => split end.
  - intros k v H. now apply lookup_union_Some_l.
  - intros k H. now apply lookup_union_r.
  - intros k [v H]. destruct (caller !! k) as [w|] eqn:E.
    + exists w. now apply lookup_union_Some_l.
    + exists v. now rewrite lookup_union_r.
  - rewrite dom_union_L. apply (comm_L (∪)).
  - reflexivity.
Qed.

End Outbound.

(** ** The definitions at work *)

Section Runs.
Import Context World Middleware Client.

Example dispatch_sample_ok :
  exists final,
    dispatch Sample.env Sample.mw Sample.request_upstream Sample.handler_ok
      Sample.start
    = (Ok (mk_response 200
             {[ TRACE_ID_HEADER := "upstream-trace-123";
                REQUEST_ID_HEADER := "test_0b30557a9fc4";
                RESPONSE_TIME_HEADER := "1000.00ms";
                SERVED_BY_HEADER := "test-service-unknown" ]} "ok"),
       final)
    /\ vars final = fresh /\ length (log final) = 2%nat.
Proof. eexists. vm_compute. repeat split. Qed.

Example dispatch_sample_cancelled :
  exists final,
    dispatch Sample.env Sample.mw Sample.request Sample.handler_cancelled
      Sample.start
    = (Raise (mk_exn CancelledError ""), final)
    /\ vars final = fresh
    /\ log final = [mk_log INFO "Request started: GET /test" None].
Proof. eexists. vm_compute. repeat split. Qed.

(** The isolation scenario with a third task writing in between. *)
Lemma context_isolation_witness :
  let sched := [ (0%nat, Tasks.CallSet (Some "X") None None);
                 (1%nat, Tasks.CallSet (Some "Y") None None);
                 (2%nat, Tasks.CallSet (Some "Z") (Some "r") None);
                 (0%nat, Tasks.CallGetTraceId);
                 (2%nat, Tasks.CallClear);
                 (1%nat, Tasks.CallGetTraceId);
                 (1%nat, Tasks.CallGetTraceId) ] in
  Tasks.reads_of 0%nat (Tasks.run ∅ sched) = [Some "X"]
  /\ Tasks.reads_of 1%nat (Tasks.run ∅ sched) = [Some "Y"; Some "Y"].
Proof.
  intros sched.
  apply (context_isolation ∅ sched 0%nat 1%nat "X" "Y" 1%nat 2%nat); reflexivity.
Defined.

(** A handler that raises [ValueError] on a path of the skip set. *)
Lemma dispatch_reraises_and_clears_witness :
  exists final,
    dispatch Sample.env Sample.mw Sample.request_error Sample.handler_error
      Sample.start
    = (Raise (mk_exn ValueError "Test error"), final)
    /\ get_current_context (vars final) = mk_ctx None None None
    /\ exists duration,
         log final
         = [mk_log ERROR
              (failed_msg Sample.request_error duration
                 (mk_exn ValueError "Test error"))
              (Some (mk_exn ValueError "Test error"))].
Proof.
  destruct (dispatch_reraises_and_clears Sample.env Sample.mw Sample.request_error
              Sample.handler_error Sample.start Sample.at_error_handler
              Sample.at_error_handler "67890abc-0b30557a9fc4-test"
              "test_e90e33587da2" 1737034429 false
              (mk_exn ValueError "Test error"))
    as (final & Hd & Hv & Hl & _); [vm_compute; reflexivity | reflexivity |].
  destruct (Hl eq_refl) as (duration & Hlog & _).
  exists final. split; [exact Hd |]. split; [exact Hv |].
  exists duration. exact Hlog.
Defined.

(** C2, as stated, fails here: the handler raises [CancelledError], an
    exception that is no instance of [Exception]; [dispatch] re-raises
    it and clears the store, but the only record in the log is the one
    of the request's start: no ["Request failed"] record is emitted. *)
Lemma dispatch_cancelled_emits_no_failure_record :
  is_Exception (mk_exn CancelledError "") = false
  /\ exists final,
       dispatch Sample.env Sample.mw Sample.request Sample.handler_cancelled
         Sample.start
       = (Raise (mk_exn CancelledError ""), final)
       /\ log final = [mk_log INFO "Request started: GET /test" None]
       /\ Forall (fun r => log_level r <> ERROR) (log final).
Proof.
  split; [reflexivity |]. eexists. split; [vm_compute; reflexivity |].
  split; [reflexivity |]. repeat constructor. discriminate.
Qed.

Lemma dispatch_response_headers_witness :
  exists response' final,
    dispatch Sample.env Sample.mw Sample.request_upstream Sample.handler_ok
      Sample.start = (Ok response', final)
    /\ resp_headers response' !! TRACE_ID_HEADER = Some "upstream-trace-123"
    /\ resp_headers response' !! REQUEST_ID_HEADER = Some "test_0b30557a9fc4".
Proof.
  destruct (dispatch_response_headers Sample.env Sample.mw Sample.request_upstream
              Sample.handler_ok Sample.start Sample.at_upstream_handler
              Sample.at_upstream_handler "upstream-trace-123" "test_0b30557a9fc4"
              1737034428 true (mk_response 200 ∅ "ok"))
    as (response' & final & Hd & Ht & _ & _ & Hr & _);
    [vm_compute; reflexivity | reflexivity |].
  exists response', final. auto.
Defined.

Lemma empty_inbound_trace_id_regenerated_witness :
  get_trace_id (vars (snd (bind_context Sample.env Sample.mw Sample.request_empty
                             Sample.start)))
  = Some (fst (World.generate_trace_id Sample.env "test" Sample.start))
  /\ fst (World.generate_trace_id Sample.env "test" Sample.start)
     = "67890abc-0b30557a9fc4-test".
Proof.
  split; [| vm_compute; reflexivity].
  apply (empty_inbound_trace_id_regenerated Sample.env Sample.mw
           Sample.request_empty Sample.start eq_refl).
Defined.

Lemma generate_parse_roundtrip_witness :
  Ids.parse_trace_id (fst (World.generate_trace_id Sample.env "auth" Sample.start))
  = Ok {[ "timestamp" := VInt 1737034428; "random" := VStr "0b30557a9fc4";
          "service_short" := VStr "auth"; "valid" := VBool true ]}.
Proof.
  destruct (generate_parse_roundtrip Sample.env Sample.start "auth" eq_refl)
    as (random & Hseg & _ & _ & _ & Hparse); [vm_compute; discriminate |].
  rewrite Hparse. injection Hseg as <-. reflexivity.
Defined.

Lemma decoded_timestamp_monotone_witness :
  exists ts1 ts2,
    field (Ids.parse_trace_id (Ids.generate_trace_id 1737034428 [] "svc")) "timestamp"
      = Some (VInt ts1)
    /\ field (Ids.parse_trace_id (Ids.generate_trace_id 1737034429 [] "my-svc"))
         "timestamp" = Some (VInt ts2)
    /\ ts1 = 1737034428 /\ ts2 = 1737034429 /\ ts1 <= ts2.
Proof.
  apply (decoded_timestamp_monotone 1737034428 1737034429 [] [] "svc" "my-svc"); lia.
Defined.

(** C5, as stated, fails here: the input has three segments and its
    first segment, ["+a"], is not valid hexadecimal, yet the result is
    [valid = True] with timestamp 10.  The same holds for a first
    segment with blanks, a prefix or an underscore. *)
Lemma parse_trace_id_accepts_signed_timestamp :
  segments "+a-b-c" = ["+a"; "b"; "c"]
  /\ ~ valid_hex "+a"
  /\ Ids.parse_trace_id "+a-b-c"
     = Ok {[ "timestamp" := VInt 10; "random" := VStr "b";
             "service_short" := VStr "c"; "valid" := VBool true ]}
  /\ ~ valid_hex " 0x_1F "
  /\ field (Ids.parse_trace_id " 0x_1F -r-s") "valid" = Some (VBool true)
  /\ ~ valid_hex "1_f"
  /\ field (Ids.parse_trace_id "1_f-r-s") "valid" = Some (VBool true).
Proof.
  repeat split; try (vm_compute; reflexivity);
    intros [_ H]; vm_compute in H; discriminate H.
Qed.

(** C3, as stated, fails here: [set_trace_context(trace_id="")] has set
    the trace id (its value is the empty string, not [None]), and
    [get_trace_headers] returns no [X-Trace-ID] entry. *)
Lemma get_trace_headers_empty_trace_id :
  get_trace_id (vars Sample.empty_trace_id) = Some ""
  /\ get_trace_id (vars Sample.empty_trace_id) <> None
  /\ fst (get_trace_headers Sample.env Sample.empty_trace_id) !! TRACE_ID_HEADER
     = None
  /\ fst (get_trace_headers Sample.env Sample.empty_trace_id) = ∅.
Proof. repeat split; try reflexivity. discriminate. Qed.

(** C4, as stated, fails here: the request supplies [X-Trace-ID] with
    the empty string as its value, and the response carries a generated
    identifier instead of that value. *)
Lemma dispatch_empty_inbound_not_echoed :
  headers Sample.request_empty !! TRACE_ID_HEADER = Some ""
  /\ exists response' final,
       dispatch Sample.env Sample.mw Sample.request_empty Sample.handler_ok
         Sample.start = (Ok response', final)
       /\ resp_headers response' !! TRACE_ID_HEADER
          = Some "67890abc-0b30557a9fc4-test"
       /\ resp_headers response' !! TRACE_ID_HEADER
          <> headers Sample.request_empty !! TRACE_ID_HEADER.
Proof.
  split; [reflexivity |]. eexists _, _. split; [vm_compute; reflexivity |].
  split; [reflexivity | discriminate].
Qed.

End Runs.

(** * Further properties of the code *)

(** ** Identifiers *)

Lemma split_parts_no_sep sep s :
  Forall (fun p => contains sep p = false) (split sep s).
Proof.
  induction s as [|c r IH]; simpl.
  - repeat constructor.
  - destruct (Ascii.eqb c sep) eqn:E.
    + constructor; [reflexivity | exact IH].
    + destruct (split sep r) as [|p ps]; [repeat constructor; simpl; now rewrite E |].
      inversion IH as [|? ? Hp Hps]; subst.
      constructor; [simpl; now rewrite E, Hp | exact Hps].
Qed.

Lemma contains_lstrip c s : contains c s = false -> contains c (lstrip s) = false.
Proof.
  induction s as [|x r IH]; simpl; [auto |].
  intros H. apply Bool.orb_false_iff in H as [Hx Hr].
  destruct (isspace x); [auto |]. simpl. now rewrite Hx, Hr.
Qed.

(** A text without ["-"] never parses to a negative number. *)
Lemma int16_nonneg s n : contains "-" s = false -> int16 s = Ok n -> 0 <= n.
Proof.
  intros Hs. apply contains_lstrip in Hs. unfold int16, skip_sign.
  destruct (lstrip s) as [|c r] eqn:L.
  - destruct (starts_with_underscore _); [discriminate |].
    destruct (scan_digits _ _ _ _) as [[v rest]|]; [| discriminate].
    destruct (_ =? _)%nat; [discriminate |].
    destruct (lstrip rest); [| discriminate]. intros [= <-]. lia.
  - simpl in Hs. apply Bool.orb_false_iff in Hs as [Hc _].
    rewrite Hc. destruct (Ascii.eqb c "+");
      (destruct (starts_with_underscore _); [discriminate |];
       destruct (scan_digits _ _ _ _) as [[v rest]|]; [| discriminate];
       destruct (_ =? _)%nat; [discriminate |];
       destruct (lstrip rest); [| discriminate]; intros [= <-]; lia).
Qed.

Lemma hex_char_inj a b : (a < 16)%N -> (b < 16)%N -> hex_char a = hex_char b -> a = b.
Proof.
  intros Ha Hb E.
  destruct (hex_char_spec a Ha) as [_ <-]. destruct (hex_char_spec b Hb) as [_ <-].
  now rewrite E.
Qed.

Lemma hexlify_inj t1 : forall t2, hexlify t1 = hexlify t2 -> t1 = t2.
Proof.
  induction t1 as [|b1 r1 IH]; intros [|b2 r2]; simpl; try discriminate; [reflexivity |].
  intros E. injection E as E1 E2 E3.
  pose proof (Byte.to_N_bounded b1). pose proof (Byte.to_N_bounded b2).
  apply hex_char_inj in E1; [| apply N.Div0.div_lt_upper_bound; lia ..].
  apply hex_char_inj in E2; [| apply N.mod_lt; discriminate ..].
  assert (E : Byte.to_N b1 = Byte.to_N b2).
  { rewrite (N.div_mod (Byte.to_N b1) 16), (N.div_mod (Byte.to_N b2) 16) by discriminate.
    now rewrite E1, E2. }
  f_equal; [| now apply IH].
  pose proof (Byte.of_to_N b1) as O1. pose proof (Byte.of_to_N b2) as O2.
  rewrite E in O1. congruence.
Qed.

(** The segments of a rendered identifier, for any random segment free
    of the separator. *)
Lemma segments_rendered ts random s :
  0 <= ts -> contains "-" random = false ->
  segments (format_x ts ++ "-" ++ random ++ "-" ++ s)
  = format_x ts :: random :: segments s.
Proof.
  intros H Hr. unfold segments. autorewrite with sapp.
  rewrite split_app by now apply format_x_no_sep.
  now rewrite split_app by assumption.
Qed.

Lemma parse_rendered ts random s :
  0 <= ts -> contains "-" random = false ->
  Ids.parse_trace_id (format_x ts ++ "-" ++ random ++ "-" ++ s)
  = Ok {[ "timestamp" := VInt ts; "random" := VStr random;
          "service_short" := VStr s; "valid" := VBool true ]}.
Proof.
  intros H Hr.
  rewrite (parse_trace_id_long _ _ _ _ (segments_rendered ts random s H Hr))
    by apply split_nonempty.
  rewrite int16_format_x by assumption.
  unfold segments. now rewrite join_split.
Qed.

(** What a result with a timestamp says about the input. *)
Lemma parse_valid_inv raw ts :
  field (Ids.parse_trace_id raw) "timestamp" = Some (VInt ts) ->
  exists p0 p1 rest,
    segments raw = p0 :: p1 :: rest /\ rest <> [] /\ int16 p0 = Ok ts
    /\ Ids.parse_trace_id raw
       = Ok {[ "timestamp" := VInt ts; "random" := VStr p1;
               "service_short" := VStr (join "-" rest); "valid" := VBool true ]}.
Proof.
  intros H.
  destruct (Nat.lt_ge_cases (length (segments raw)) 3) as [Hshort | Hlong].
  - rewrite (parse_trace_id_short raw Hshort) in H. discriminate H.
  - destruct (segments raw) as [|p0 [|p1 [|p2 rest]]] eqn:S; simpl in Hlong; try lia.
    pose proof (parse_trace_id_long raw p0 p1 (p2 :: rest) S ltac:(discriminate)) as P.
    rewrite P in H.
    destruct (int16 p0) as [n|e] eqn:E; [| discriminate H].
    change (Some (VInt n) = Some (VInt ts)) in H. injection H as ->.
    exists p0, p1, (p2 :: rest).
    split; [reflexivity |]. split; [discriminate |]. split; [exact E | exact P].
Qed.

(** X1.  [generate_request_id(prefix)] is the prefix, an underscore and
    twelve lowercase hexadecimal characters, so thirteen characters
    longer than the prefix; it draws six random bytes and leaves the
    rest of the state alone. *)
Theorem request_id_format (env : World.Env) (prefix : string) (st : World.State) :
  let rid := fst (World.generate_request_id env prefix st) in
  let st' := snd (World.generate_request_id env prefix st) in
  exists random,
    rid = prefix ++ "_" ++ random
    /\ String.length random = 12%nat
    /\ all_chars is_hex_lower random = true
    /\ String.length rid = (String.length prefix + 13)%nat
    /\ World.drawn st' = (World.drawn st + 6)%nat
    /\ World.vars st' = World.vars st /\ World.log st' = World.log st
    /\ World.ticks st' = World.ticks st.
Proof.
  cbv zeta. exists (hexlify (World.urandom env <$> seq (World.drawn st) 6)).
  assert (L : String.length (hexlify (World.urandom env <$> seq (World.drawn st) 6))
              = 12%nat)
    by now rewrite hexlify_length, length_fmap, length_seq.
  split; [reflexivity |]. split; [exact L |]. split; [apply hexlify_chars |].
  split; [| repeat split].
  change (fst (World.generate_request_id env prefix st))
    with (prefix ++ "_" ++ hexlify (World.urandom env <$> seq (World.drawn st) 6)).
  rewrite !length_string_app, L. simpl. lia.
Qed.

(** X2.  A service-short that itself contains the separator survives the
    round trip: the identifier has two segments more than the
    service-short has, and parsing returns the service-short whole. *)
Theorem service_short_with_separator_recovered (now : Z) (token : list Byte.byte)
    (s : string) :
  0 <= now ->
  length (segments (Ids.generate_trace_id now token s))
  = (2 + length (segments s))%nat
  /\ field (Ids.parse_trace_id (Ids.generate_trace_id now token s)) "service_short"
     = Some (VStr s)
  /\ field (Ids.parse_trace_id (Ids.generate_trace_id now token s)) "valid"
     = Some (VBool true).
Proof.
  intros H. rewrite segments_generated by assumption.
  rewrite parse_generated by assumption. repeat split.
Qed.

(** X3.  Whatever the input, a result that carries a timestamp carries a
    non-negative one, and neither its timestamp text nor its random
    segment contains the separator: a minus sign can never reach
    [int(_, 16)]. *)
Theorem parsed_timestamp_nonneg (raw : string) (ts : Z) (random : string) :
  field (Ids.parse_trace_id raw) "timestamp" = Some (VInt ts) ->
  field (Ids.parse_trace_id raw) "random" = Some (VStr random) ->
  0 <= ts /\ contains "-" random = false.
Proof.
  intros Ht Hr. destruct (parse_valid_inv raw ts Ht) as (p0 & p1 & rest & S & _ & I & P).
  rewrite P in Hr. injection Hr as <-.
  pose proof (split_parts_no_sep "-" raw) as F. fold (segments raw) in F.
  rewrite S in F. inversion F as [|? ? F0 F']; subst. inversion F' as [|? ? F1 _]; subst.
  split; [exact (int16_nonneg p0 ts F0 I) | exact F1].
Qed.

(** X4.  At a clock reading before the epoch the generated identifier
    starts with the separator, and [parse_trace_id] reports it invalid. *)
Theorem pre_epoch_id_does_not_parse (now : Z) (token : list Byte.byte) (s : string) :
  now < 0 ->
  hd "" (segments (Ids.generate_trace_id now token s)) = ""
  /\ Ids.parse_trace_id (Ids.generate_trace_id now token s)
     = Ok (Ids.invalid_result (Ids.generate_trace_id now token s)).
Proof.
  intros H.
  assert (S : segments (Ids.generate_trace_id now token s)
              = "" :: hex_of_N (Z.abs_N now) :: hexlify token :: segments s).
  { unfold segments, Ids.generate_trace_id, format_x.
    apply Z.ltb_lt in H. rewrite H. autorewrite with sapp. simpl.
    rewrite split_app by apply no_sep_of_hex, hex_of_N_chars.
    now rewrite split_app by apply no_sep_of_hex, hexlify_chars. }
  split; [now rewrite S |].
  rewrite (parse_trace_id_long _ _ _ _ S) by discriminate. reflexivity.
Qed.

(** X5.  Parsing is stable under re-rendering: putting the three fields
    of a valid result back together as [generate_trace_id] does gives a
    text that parses to the same three fields. *)
Theorem parse_rerender_stable (raw : string) (ts : Z) (random s : string) :
  field (Ids.parse_trace_id raw) "timestamp" = Some (VInt ts) ->
  field (Ids.parse_trace_id raw) "random" = Some (VStr random) ->
  field (Ids.parse_trace_id raw) "service_short" = Some (VStr s) ->
  Ids.parse_trace_id (format_x ts ++ "-" ++ random ++ "-" ++ s)
  = Ok {[ "timestamp" := VInt ts; "random" := VStr random;
          "service_short" := VStr s; "valid" := VBool true ]}.
Proof.
  intros Ht Hr Hs. destruct (parse_valid_inv raw ts Ht) as (p0 & p1 & rest & S & _ & I & P).
  rewrite P in Hr, Hs. injection Hr as <-. injection Hs as <-.
  pose proof (split_parts_no_sep "-" raw) as F. fold (segments raw) in F.
  rewrite S in F. inversion F as [|? ? F0 F']; subst. inversion F' as [|? ? F1 _]; subst.
  apply parse_rendered; [exact (int16_nonneg p0 ts F0 I) | exact F1].
Qed.

Lemma Ok_inj {A} (a b : A) : Ok a = Ok b -> a = b.
Proof. intros E. now injection E. Qed.

(** X6.  Identifiers are equal only if everything that went into them is
    equal: two trace ids (generated at clock readings from the epoch on)
    that coincide have the same timestamp, the same random bytes and
    the same service-short, and two request ids with one prefix that
    coincide have the same random bytes. *)
Theorem generated_ids_injective (n1 n2 : Z) (t1 t2 : list Byte.byte) (s1 s2 : string)
    (prefix : string) :
  0 <= n1 -> 0 <= n2 ->
  (Ids.generate_trace_id n1 t1 s1 = Ids.generate_trace_id n2 t2 s2 ->
   n1 = n2 /\ t1 = t2 /\ s1 = s2)
  /\ (Ids.generate_request_id t1 prefix = Ids.generate_request_id t2 prefix ->
      t1 = t2).
Proof.
  intros H1 H2. split.
  - intros E. pose proof (parse_generated n1 t1 s1 H1) as P1.
    rewrite E, (parse_generated n2 t2 s2 H2) in P1. apply Ok_inj in P1 as D.
    pose proof (f_equal (fun d : gmap string value => d !! "timestamp") D) as Dt.
    pose proof (f_equal (fun d : gmap string value => d !! "random") D) as Dr.
    pose proof (f_equal (fun d : gmap string value => d !! "service_short") D) as Ds.
    cbv beta in Dt, Dr, Ds.
    assert (T : forall (a : Z) (b c : string),
      ({[ "timestamp" := VInt a; "random" := VStr b;
          "service_short" := VStr c; "valid" := VBool true ]} : gmap string value)
        !! "timestamp" = Some (VInt a)) by reflexivity.
    assert (R : forall (a : Z) (b c : string),
      ({[ "timestamp" := VInt a; "random" := VStr b;
          "service_short" := VStr c; "valid" := VBool true ]} : gmap string value)
        !! "random" = Some (VStr b)) by reflexivity.
    assert (Sv : forall (a : Z) (b c : string),
      ({[ "timestamp" := VInt a; "random" := VStr b;
          "service_short" := VStr c; "valid" := VBool true ]} : gmap string value)
        !! "service_short" = Some (VStr c)) by reflexivity.
    rewrite !T in Dt. rewrite !R in Dr. rewrite !Sv in Ds.
    injection Dt as <-. injection Dr as Dr. injection Ds as <-.
    repeat split; auto. symmetry. now apply hexlify_inj.
  - unfold Ids.generate_request_id. intros E.
    apply (inj (String.app prefix)) in E. autorewrite with sapp in E.
    injection E as E. now apply hexlify_inj.
Qed.

(** ** The Context Store, once more *)

Section ContextStoreMore.
Import Context.

(** X7.  Two calls of [set_trace_context] in a row are one call in which,
    field by field, the argument of the later call is taken where it
    carries a value and the argument of the earlier call otherwise. *)
Theorem set_trace_context_compose (v : Vars) (t1 r1 p1 t2 r2 p2 : option string) :
  set_trace_context t2 r2 p2 (set_trace_context t1 r1 p1 v)
  = set_trace_context (t2 ∪ t1) (r2 ∪ r1) (p2 ∪ p1) v.
Proof.
  destruct v as [a b c], t1, r1, p1, t2, r2, p2; reflexivity.
Qed.

(** X8.  [set_trace_context] cannot take a value away: a field that
    holds a value holds one after any call.  [clear_trace_context]
    is the only way back, and it empties all three fields whatever was
    set before. *)
Theorem set_never_unsets (v : Vars) (t r p : option string) :
  (is_Some (get_trace_id v) ->
   is_Some (get_trace_id (set_trace_context t r p v)))
  /\ (is_Some (get_request_id v) ->
      is_Some (get_request_id (set_trace_context t r p v)))
  /\ (is_Some (get_parent_span_id v) ->
      is_Some (get_parent_span_id (set_trace_context t r p v)))
  /\ get_current_context (clear_trace_context (set_trace_context t r p v))
     = mk_ctx None None None.
Proof.
  destruct v as [a b c], t, r, p; repeat split; simpl; eauto.
Qed.

End ContextStoreMore.

(** ** The request lifecycle, once more *)

Section LifecycleMore.
Import Context World Middleware Client.
Context (env : Env) (self : TracingMiddleware).

Lemma or_else_nonempty (o : option string) (b : string) : b <> "" -> or_else o b <> "".
Proof. destruct o as [[|c r]|]; simpl; congruence. Qed.

Lemma generated_request_id_nonempty prefix st :
  fst (World.generate_request_id env prefix st) <> "".
Proof.
  destruct (generated_request_id_prefix env prefix st) as [post ->].
  intros E. apply (f_equal String.length) in E.
  rewrite !length_string_app in E. simpl in E. lia.
Qed.

(** What the Context Store holds when the handler is called. *)
Lemma bound_ids request st :
  exists trace_id request_id start_time should_log st0,
    bind_context env self request st
      = ((trace_id, request_id, start_time, should_log), st0)
    /\ trace_id <> "" /\ request_id <> ""
    /\ get_trace_id (vars st0) = Some trace_id
    /\ get_request_id (vars st0) = Some request_id
    /\ get_parent_span_id (vars st0)
       = headers request !! PARENT_SPAN_ID_HEADER ∪ get_parent_span_id (vars st).
Proof.
  destruct (bind_context env self request st) as [[[[tid rid] t0] sl] st0] eqn:Hb.
  destruct (bind_context_spec _ _ _ _ _ _ _ _ _ Hb) as (Ht & Hr & Hv & _).
  cbv zeta in Ht, Hr. exists tid, rid, t0, sl, st0.
  split; [reflexivity |].
  split; [rewrite Ht; apply or_else_nonempty, generated_trace_id_nonempty |].
  split; [rewrite Hr; apply generated_request_id_nonempty |].
  rewrite Hv. destruct (vars st) as [a b [c|]].
  all: destruct (headers request !! PARENT_SPAN_ID_HEADER);
    (split; [reflexivity |]); split; reflexivity.
Qed.

Lemma dispatch_final_vars request call_next st :
  vars (snd (dispatch env self request call_next st)) = fresh.
Proof.
  destruct (bind_context env self request st) as [[[[tid rid] t0] sl] st0] eqn:Hb.
  destruct (call_next request st0) as [[response | e] st1] eqn:Hc.
  - now rewrite (dispatch_return _ _ _ _ _ _ _ _ _ _ _ _ Hb Hc).
  - now rewrite (dispatch_raise _ _ _ _ _ _ _ _ _ _ _ _ Hb Hc).
Qed.

Lemma attached_ids trace_id request_id duration response :
  resp_headers (attach_headers env self trace_id request_id duration response)
    !! TRACE_ID_HEADER = Some trace_id
  /\ resp_headers (attach_headers env self trace_id request_id duration response)
       !! REQUEST_ID_HEADER = Some request_id.
Proof.
  rewrite attach_headers_map. cbv zeta.
  destruct (truthy (getenv env "DEPLOYMENT_ID"));
    rewrite !lookup_insert_ne by discriminate;
    (split; [apply lookup_insert_eq |]);
    rewrite !lookup_insert_ne by discriminate; apply lookup_insert_eq.
Qed.

(** The trace headers of a store that holds both identifiers. *)
Lemma trace_headers_of_bound st trace_id request_id :
  trace_id <> "" -> request_id <> "" ->
  get_trace_id (vars st) = Some trace_id ->
  get_request_id (vars st) = Some request_id ->
  fst (get_trace_headers env st) !! TRACE_ID_HEADER = Some trace_id
  /\ fst (get_trace_headers env st) !! PARENT_SPAN_ID_HEADER = Some request_id.
Proof.
  intros Nt Nr Gt Gr. rewrite get_trace_headers_map, Gt, Gr. cbv zeta.
  destruct trace_id as [|c1 r1]; [congruence |].
  destruct request_id as [|c2 r2]; [congruence |]. cbn [truthy default].
  destruct (truthy (getenv env "DEPLOYMENT_ID")); split;
    rewrite ?lookup_insert_ne by discriminate; apply lookup_insert_eq.
Qed.

(** X10.  Cleanup on every exit path.  Whatever the handler does, return
    or raise anything at all, set context values of its own or not,
    the Context Store of the task is empty once [dispatch] is over. *)
Theorem dispatch_always_clears (request : Request) (call_next : handler) (st : State) :
  get_current_context (vars (snd (dispatch env self request call_next st)))
  = mk_ctx None None None.
Proof. now rewrite dispatch_final_vars. Qed.

(** X11.  The identifiers in the response are the identifiers the
    handler ran under: [X-Trace-ID] and [X-Request-ID] of the response
    are what [get_trace_id()] and [get_request_id()] returned when the
    handler was called, even if the handler changed the store. *)
Theorem response_ids_match_context (request : Request) (call_next : handler)
    (st st1 : State) (response : Response) :
  let st0 := snd (bind_context env self request st) in
  call_next request st0 = (Ok response, st1) ->
  exists response' final,
    dispatch env self request call_next st = (Ok response', final)
    /\ resp_headers response' !! TRACE_ID_HEADER = get_trace_id (vars st0)
    /\ resp_headers response' !! REQUEST_ID_HEADER = get_request_id (vars st0)
    /\ is_Some (get_trace_id (vars st0)) /\ is_Some (get_request_id (vars st0)).
Proof.
  cbv zeta. intros Hc.
  destruct (bound_ids request st) as (tid & rid & t0 & sl & st0 & Hb & _ & _ & Gt & Gr & _).
  rewrite Hb in *. cbn [snd] in *.
  eexists _, _. split; [exact (dispatch_return _ _ _ _ _ _ _ _ _ _ _ _ Hb Hc) |].
  rewrite Gt, Gr.
  destruct (attached_ids tid rid (format_ms env t0 (time_at env (ticks st1))) response)
    as [-> ->].
  eauto.
Qed.

(** X12.  The middleware changes nothing else in the response: status
    code and body are the handler's, and so is every header other than
    the five it writes. *)
Theorem response_otherwise_untouched (request : Request) (call_next : handler)
    (st st1 : State) (response : Response) :
  let st0 := snd (bind_context env self request st) in
  call_next request st0 = (Ok response, st1) ->
  exists response' final,
    dispatch env self request call_next st = (Ok response', final)
    /\ status_code response' = status_code response
    /\ body response' = body response
    /\ forall k, k <> TRACE_ID_HEADER -> k <> REQUEST_ID_HEADER ->
         k <> RESPONSE_TIME_HEADER -> k <> SERVED_BY_HEADER ->
         k <> DEPLOYMENT_ID_HEADER ->
         resp_headers response' !! k = resp_headers response !! k.
Proof.
  cbv zeta. intros Hc.
  destruct (bind_context env self request st) as [[[[tid rid] t0] sl] st0] eqn:Hb.
  cbn [snd] in Hc.
  eexists _, _. split; [exact (dispatch_return _ _ _ _ _ _ _ _ _ _ _ _ Hb Hc) |].
  split; [| split].
  - unfold attach_headers. now destruct (getenv env "DEPLOYMENT_ID") as [[|c r]|].
  - unfold attach_headers. now destruct (getenv env "DEPLOYMENT_ID") as [[|c r]|].
  - intros k K1 K2 K3 K4 K5. rewrite attach_headers_map. cbv zeta.
    destruct (truthy (getenv env "DEPLOYMENT_ID"));
      now rewrite !lookup_insert_ne by congruence.
Qed.

(** The records the middleware adds around a handler that returns. *)
Lemma dispatch_return_logs (request : Request) (call_next : handler)
    (st st1 : State) (response : Response) :
  let st0 := snd (bind_context env self request st) in
  let should_log := log_requests self
                    && negb (bool_decide (path request ∈ skip_paths self)) in
  call_next request st0 = (Ok response, st1) ->
  log st0 = (if should_log
             then (log st ++ [mk_log INFO (started_msg request) None])%list
             else log st)
  /\ exists duration,
       log (snd (dispatch env self request call_next st))
       = if should_log
         then (log st1
               ++ [mk_log INFO (completed_msg request response duration) None])%list
         else log st1.
Proof.
  cbv zeta. intros Hc.
  destruct (bind_context env self request st) as [[[[tid rid] t0] sl] st0] eqn:Hb.
  cbn [snd] in *.
  destruct (bind_context_spec _ _ _ _ _ _ _ _ _ Hb) as (_ & _ & _ & Hsl).
  rewrite <- Hsl. split.
  - revert Hb. unfold bind_context, mbind, io_bind. rewrite <- Hsl.
    destruct (headers request !! TRACE_ID_HEADER) as [[|c r]|];
      destruct sl; simpl; intros [= <- <- <- <-]; reflexivity.
  - rewrite (dispatch_return _ _ _ _ _ _ _ _ _ _ _ _ Hb Hc). cbn [snd log]. eauto.
Qed.

(** X13.  Lifecycle logging.  On a path of the skip set, or with request
    logging switched off, the middleware logs nothing around a handler
    that returns, and the response still carries the trace and request
    identifiers; otherwise it logs exactly one ["Request started"]
    record before the handler and one ["Request completed"] record
    after it. *)
Theorem lifecycle_logging (request : Request) (call_next : handler)
    (st st1 : State) (response : Response) :
  let st0 := snd (bind_context env self request st) in
  let quiet := negb (log_requests self)
               || bool_decide (path request ∈ skip_paths self) in
  call_next request st0 = (Ok response, st1) ->
  exists response' final,
    dispatch env self request call_next st = (Ok response', final)
    /\ is_Some (resp_headers response' !! TRACE_ID_HEADER)
    /\ is_Some (resp_headers response' !! REQUEST_ID_HEADER)
    /\ (quiet = true -> log st0 = log st /\ log final = log st1)
    /\ (quiet = false ->
        log st0 = (log st ++ [mk_log INFO (started_msg request) None])%list
        /\ exists duration,
             log final
             = (log st1
                ++ [mk_log INFO (completed_msg request response duration) None])%list).
Proof.
  cbv zeta. intros Hc.
  destruct (dispatch_return_logs request call_next st st1 response Hc) as (L0 & d & L1).
  cbv zeta in L0, L1.
  assert (Q : negb (log_requests self) || bool_decide (path request ∈ skip_paths self)
              = negb (log_requests self
                      && negb (bool_decide (path request ∈ skip_paths self))))
    by now destruct (log_requests self), (bool_decide _).
  rewrite Q.
  destruct (bind_context env self request st) as [[[[tid rid] t0] sl] st0] eqn:Hb.
  cbn [snd] in *.
  pose proof (dispatch_return _ _ _ _ _ _ _ _ _ _ _ _ Hb Hc) as D. cbv zeta in D.
  rewrite D in L1. cbn [snd] in L1.
  eexists _, _. split; [exact D |].
  destruct (attached_ids tid rid (format_ms env t0 (time_at env (ticks st1))) response)
    as [-> ->].
  split; [eauto |]. split; [eauto |].
  destruct (log_requests self && negb (bool_decide (path request ∈ skip_paths self)));
    cbn [negb]; split; intros E; try discriminate E; eauto.
Qed.

(** X14.  An inbound [X-Request-ID], like every inbound header other
    than [X-Trace-ID] and [X-Parent-Span-ID], has no influence on the
    identifiers, the Context Store or the log: the request id is always
    generated for the hop. *)
Theorem other_inbound_headers_ignored (request : Request) (k v : string) (st : State) :
  k <> TRACE_ID_HEADER -> k <> PARENT_SPAN_ID_HEADER ->
  bind_context env self
    (mk_request (method request) (path request) (<[k := v]> (headers request))) st
  = bind_context env self request st.
Proof.
  intros K1 K2. unfold bind_context. cbn [headers path method].
  now rewrite !lookup_insert_ne by congruence.
Qed.

(** X15.  The parent span of the hop.  An inbound [X-Parent-Span-ID] is
    stored as it comes, the empty string included; without the header
    the field keeps what the task held before, which is nothing on a
    store that is clear. *)
Theorem parent_span_at_handler (request : Request) (st : State) :
  let st0 := snd (bind_context env self request st) in
  (forall p, headers request !! PARENT_SPAN_ID_HEADER = Some p ->
             get_parent_span_id (vars st0) = Some p)
  /\ (headers request !! PARENT_SPAN_ID_HEADER = None ->
      get_parent_span_id (vars st0) = get_parent_span_id (vars st))
  /\ (headers request !! PARENT_SPAN_ID_HEADER = None ->
      get_parent_span_id (vars st) = None ->
      get_parent_span_id (vars st0) = None).
Proof.
  cbv zeta.
  destruct (bound_ids request st) as (tid & rid & t0 & sl & st0 & Hb & _ & _ & _ & _ & Gp).
  rewrite Hb. cbn [snd]. rewrite Gp.
  split; [| split].
  - intros p ->. now destruct (get_parent_span_id (vars st)).
  - intros ->. now destruct (get_parent_span_id (vars st)).
  - intros -> ->. reflexivity.
Qed.

(** X16.  Propagation inside a request.  While the handler runs,
    [get_trace_headers()] and the client's [_merge_headers()] carry the
    trace id of the request under [X-Trace-ID] and the request id of
    this hop under [X-Parent-Span-ID]; both are always there. *)
Theorem outbound_headers_in_handler (request : Request) (st : State) :
  let st0 := snd (bind_context env self request st) in
  let h := fst (_merge_headers env None st0) in
  h = fst (get_trace_headers env st0)
  /\ h !! TRACE_ID_HEADER = get_trace_id (vars st0)
  /\ h !! PARENT_SPAN_ID_HEADER = get_request_id (vars st0)
  /\ is_Some (h !! TRACE_ID_HEADER) /\ is_Some (h !! PARENT_SPAN_ID_HEADER).
Proof.
  cbv zeta.
  destruct (bound_ids request st) as (tid & rid & t0 & sl & st0 & Hb & Nt & Nr & Gt & Gr & _).
  rewrite Hb. cbn [snd].
  destruct (trace_headers_of_bound st0 tid rid Nt Nr Gt Gr) as [Ht Hr].
  split; [reflexivity |].
  change (fst (_merge_headers env None st0)) with (fst (get_trace_headers env st0)).
  rewrite Ht, Hr, Gt, Gr. eauto.
Qed.

(** X17.  Nothing leaks out of a request.  After [dispatch], whatever
    the handler did, the task's outbound headers carry no trace id and
    no parent span: they are empty, or hold the deployment header only. *)
Theorem no_trace_headers_after_dispatch (request : Request) (call_next : handler)
    (st : State) :
  let final := snd (dispatch env self request call_next st) in
  fst (get_trace_headers env final) !! TRACE_ID_HEADER = None
  /\ fst (get_trace_headers env final) !! PARENT_SPAN_ID_HEADER = None
  /\ fst (_merge_headers env None final)
     = if truthy (getenv env "DEPLOYMENT_ID")
       then {[ DEPLOYMENT_ID_HEADER := default "" (getenv env "DEPLOYMENT_ID") ]}
       else ∅.
Proof.
  cbv zeta.
  change (fst (_merge_headers env None (snd (dispatch env self request call_next st))))
    with (fst (get_trace_headers env (snd (dispatch env self request call_next st)))).
  rewrite get_trace_headers_map, dispatch_final_vars. cbv zeta. cbn [truthy get_trace_id
    get_request_id fresh _trace_id_var _request_id_var].
  destruct (truthy (getenv env "DEPLOYMENT_ID"));
    rewrite ?lookup_insert_ne by discriminate; rewrite ?lookup_empty; auto.
Qed.

End LifecycleMore.

(** ** From one service to the next *)

Section TwoHops.
Import Context World Middleware Client.
Context (envA envB : Env) (selfA selfB : TracingMiddleware).

(** X18.  Two hops.  Service A handles a request and, from inside its
    handler, calls service B with the headers [_merge_headers()] gives.
    Then B runs its handler under A's trace id, and B's parent span is
    A's request id: the trace id is stable across hops and each hop
    points at its caller. *)
Theorem trace_propagates_across_hops (requestA : Request) (stA stB : State)
    (methodB pathB : string) :
  let atA := snd (bind_context envA selfA requestA stA) in
  let requestB := mk_request methodB pathB (fst (_merge_headers envA None atA)) in
  let atB := snd (bind_context envB selfB requestB stB) in
  get_trace_id (vars atB) = get_trace_id (vars atA)
  /\ get_parent_span_id (vars atB) = get_request_id (vars atA)
  /\ is_Some (get_trace_id (vars atA)) /\ is_Some (get_request_id (vars atA)).
Proof.
  cbv zeta.
  destruct (bound_ids envA selfA requestA stA)
    as (tidA & ridA & t0 & sl & atA & HbA & Nt & Nr & Gt & Gr & _).
  rewrite HbA. cbn [snd].
  destruct (trace_headers_of_bound envA atA tidA ridA Nt Nr Gt Gr) as [Ht Hr].
  change (fst (_merge_headers envA None atA)) with (fst (get_trace_headers envA atA)).
  set (requestB := mk_request methodB pathB (fst (get_trace_headers envA atA))).
  destruct (bound_ids envB selfB requestB stB)
    as (tidB & ridB & t0' & sl' & atB & HbB & _ & _ & GtB & _ & GpB).
  destruct (bind_context_spec _ _ _ _ _ _ _ _ _ HbB) as (HtB & _).
  cbv zeta in HtB. rewrite HbB. cbn [snd].
  change (headers requestB) with (fst (get_trace_headers envA atA)) in *.
  rewrite Ht in HtB. rewrite Hr in GpB.
  rewrite GtB, GpB, Gt, Gr, HtB.
  destruct tidA as [|c r]; [congruence |].
  split; [reflexivity |]. split; [| eauto].
  now destruct (get_parent_span_id (vars stB)).
Qed.

End TwoHops.

(** ** Configuration *)

Section Configuration.
Import Middleware.

Lemma take_length n : forall s, (String.length (take n s) <= n)%nat.
Proof.
  induction n as [|n IH]; intros [|c r]; simpl; try lia.
  specialize (IH r). lia.
Qed.

Lemma take_prefix n : forall s, starts_with s (take n s).
Proof.
  induction n as [|n IH]; intros s.
  - exists s. now destruct s.
  - destruct s as [|c r]; [now exists "" |].
    destruct (IH r) as [post E]. exists post. simpl.
    autorewrite with sapp. now rewrite <- E.
Qed.

(** X19.  Defaults of [TracingMiddleware].  A service-short that is
    left out or empty becomes the first four characters of the service
    name (all of it when it is shorter).  A skip list that is left out
    or empty becomes the three default paths, so an empty list does not
    switch skipping off: a request to one of them is still served
    without a log record.  A non-empty list replaces the defaults
    altogether. *)
Theorem middleware_defaults (env : World.Env) (service_name : string)
    (short : option string) (log_requests : bool) (request : Request)
    (call_next : handler) (st st1 : World.State) (response : Response) :
  let self := init (World.getenv env) service_name short (Some []) log_requests in
  let st0 := snd (bind_context env self request st) in
  path request ∈ default_skip_paths ->
  call_next request st0 = (Ok response, st1) ->
  World.log st0 = World.log st
  /\ World.log (snd (dispatch env self request call_next st)) = World.log st1
  /\ skip_paths self
     = skip_paths (init (World.getenv env) service_name short None log_requests)
  /\ (forall p ps q,
        q ∈ skip_paths (init (World.getenv env) service_name short (Some (p :: ps))
                          log_requests)
        <-> q ∈ p :: ps)
  /\ (short = None \/ short = Some "" ->
      service_short self = take 4 service_name
      /\ starts_with service_name (service_short self)
      /\ (String.length (service_short self) <= 4)%nat).
Proof.
  cbv zeta. intros Hp Hc.
  destruct (dispatch_return_logs env _ request call_next st st1 response Hc) as (L0 & d & L1).
  cbv zeta in L0, L1.
  assert (S : bool_decide (path request ∈ skip_paths
                (init (World.getenv env) service_name short (Some []) log_requests))
              = true).
  { apply bool_decide_eq_true. unfold init. cbn [skip_paths].
    now apply elem_of_list_to_set. }
  rewrite S, Bool.andb_false_r in L0, L1.
  split; [exact L0 |]. split; [exact L1 |]. split; [reflexivity |]. split.
  - intros p ps q. unfold init. cbn [skip_paths]. apply elem_of_list_to_set.
  - intros [-> | ->]; cbn [init service_short or_else];
      (split; [reflexivity |]); split; [apply take_prefix | apply take_length
                                        | apply take_prefix | apply take_length].
Qed.

(** X20.  The short commit is at most seven characters long.  It is
    ["unknown"] when [GIT_COMMIT] is unset, empty or ["unknown"], and
    otherwise the non-empty text made of the first seven characters of
    the commit, or the whole commit when that is shorter. *)
Theorem short_commit_spec (getenv : string -> option string) :
  let b := BuildInfo.init getenv in
  (String.length (BuildInfo.short_commit b) <= 7)%nat
  /\ (getenv "GIT_COMMIT" = None \/ getenv "GIT_COMMIT" = Some ""
      \/ getenv "GIT_COMMIT" = Some "unknown" ->
      BuildInfo.short_commit b = "unknown")
  /\ (forall commit, getenv "GIT_COMMIT" = Some commit ->
        commit <> "" -> commit <> "unknown" ->
        BuildInfo.short_commit b = take 7 commit
        /\ starts_with commit (BuildInfo.short_commit b)
        /\ BuildInfo.short_commit b <> "").
Proof.
  cbv zeta. unfold BuildInfo.short_commit, BuildInfo.init.
  cbn [BuildInfo.git_commit]. split; [| split].
  - destruct (truthy _ && _); [apply take_length | simpl; lia].
  - intros [-> | [-> | ->]]; reflexivity.
  - intros commit -> Hne Hun. cbv [from_option id].
    destruct commit as [|c r]; [congruence |]. cbn [truthy andb].
    apply String.eqb_neq in Hun. rewrite Hun. cbn [negb].
    split; [reflexivity |]. split; [apply take_prefix | discriminate].
Qed.

End Configuration.

(** ** Raised values that are no [Exception] *)

Section Cancellation.
Import Context World Middleware.
Context (env : Env) (self : TracingMiddleware).

(** X21.  A raised value that is no instance of [Exception] (a
    cancellation, [KeyboardInterrupt], [SystemExit]) skips the [except]
    block: it is re-raised as it is and the store is cleared, but no
    ["Request failed"] record is logged and the clock is not read. *)
Theorem base_exception_cleans_up_silently (request : Request) (call_next : handler)
    (st st1 : State) (e : exn) :
  let st0 := snd (bind_context env self request st) in
  call_next request st0 = (Raise e, st1) ->
  is_Exception e = false ->
  exists final,
    dispatch env self request call_next st = (Raise e, final)
    /\ vars final = fresh /\ log final = log st1 /\ ticks final = ticks st1.
Proof.
  cbv zeta. intros Hc He.
  destruct (bind_context env self request st) as [[[[tid rid] t0] sl] st0] eqn:Hb.
  cbn [snd] in Hc.
  eexists. split; [exact (dispatch_raise _ _ _ _ _ _ _ _ _ _ _ _ Hb Hc) |].
  rewrite He. repeat split.
Qed.

End Cancellation.

(** ** Structured log records *)

Section JsonLogs.
Import Context.
Context {X : Type}.

Lemma lookup_filter_not_None (m : gmap string (Logging.jvalue X)) (k : string) :
  filter (fun kv => Logging.is_None (snd kv) = false) m !! k
  = match m !! k with
    | Some x => if Logging.is_None x then None else Some x
    | None => None
    end.
Proof.
  rewrite map_lookup_filter. destruct (m !! k) as [x|]; [| reflexivity].
  cbn [mbind option_bind snd]. destruct (Logging.is_None x); case_guard;
    simpl; congruence.
Qed.

Lemma of_optional_kept (o : option string) :
  (if Logging.is_None (@Logging.of_optional X o) then None
   else Some (@Logging.of_optional X o))
  = Logging.JStr <$> o.
Proof. now destruct o. Qed.

(** The three trace fields of a structured record. *)
Lemma json_trace_fields (self : Logging.JSONFormatter) now settings (v : Vars)
    (record : Logging.LogRecord X) :
  let d := Logging.format_log_data self now settings v record in
  d !! "trace_id" = Logging.JStr <$> get_trace_id v
  /\ d !! "request_id" = Logging.JStr <$> get_request_id v
  /\ d !! "parent_span_id" = Logging.JStr <$> get_parent_span_id v.
Proof.
  cbv zeta. unfold Logging.format_log_data. rewrite !lookup_filter_not_None.
  destruct (Settings.deployment_id settings) as [[|c r]|];
    destruct (Logging.exc_info record) as [ei|];
    destruct (Logging.extra_data record) as [d|];
    try destruct (bool_decide (size d = 0%nat));
    rewrite ?lookup_insert_ne by discriminate;
    (split; [apply of_optional_kept | split; apply of_optional_kept]).
Qed.

(** X22.  The dictionary a structured log record is made of carries
    [trace_id], [request_id] and [parent_span_id] exactly for the fields
    the store holds, an empty string included (unlike the outbound
    headers, which drop it).  It never contains a [None] value; level,
    service, message and logger are always there; [deployment_id] is
    there only for a non-empty deployment id in the settings. *)
Theorem json_log_fields (self : Logging.JSONFormatter) (now : string)
    (settings : Settings.Settings) (v : Vars) (record : Logging.LogRecord X) :
  let d := Logging.format_log_data self now settings v record in
  d !! "trace_id" = Logging.JStr <$> get_trace_id v
  /\ d !! "request_id" = Logging.JStr <$> get_request_id v
  /\ d !! "parent_span_id" = Logging.JStr <$> get_parent_span_id v
  /\ (forall k, d !! k <> Some Logging.JNone)
  /\ d !! "level" = Some (Logging.JStr (Logging.levelname record))
  /\ d !! "service" = Some (Logging.JStr (Logging.service_name self))
  /\ d !! "message" = Some (Logging.JStr (Logging.message record))
  /\ d !! "logger" = Some (Logging.JStr (Logging.name record))
  /\ d !! "deployment_id"
     = (if truthy (Settings.deployment_id settings)
        then Logging.JStr <$> Settings.deployment_id settings else None).
Proof.
  cbv zeta.
  destruct (json_trace_fields self now settings v record) as (Ht & Hr & Hp).
  split; [exact Ht |]. split; [exact Hr |]. split; [exact Hp |].
  unfold Logging.format_log_data. split.
  - intros k. rewrite lookup_filter_not_None.
    match goal with |- context [?m !! k] => destruct (m !! k) as [x|] end;
      [| discriminate].
    destruct (Logging.is_None x) eqn:E; [discriminate |].
    intros [= ->]. discriminate E.
  - rewrite !lookup_filter_not_None.
    destruct (Settings.deployment_id settings) as [[|c r]|];
      destruct (Logging.exc_info record) as [ei|];
      destruct (Logging.extra_data record) as [d|];
      try destruct (bool_decide (size d = 0%nat));
      rewrite ?lookup_insert_ne by discriminate;
      repeat split; try reflexivity;
      rewrite ?lookup_insert_eq; reflexivity.
Qed.

End JsonLogs.

Section LogCorrelation.
Import Context World Middleware.
Context {X : Type} (env : Env) (self : TracingMiddleware).

(** X23.  Log and response correlate.  A record formatted when the
    handler is called carries, as [trace_id] and [request_id], the very
    values the response will carry in [X-Trace-ID] and [X-Request-ID]. *)
Theorem log_records_carry_response_ids (fmt : Logging.JSONFormatter) (now : string)
    (settings : Settings.Settings) (record : Logging.LogRecord X)
    (request : Request) (call_next : handler) (st st1 : State) (response : Response) :
  let st0 := snd (bind_context env self request st) in
  let d := Logging.format_log_data fmt now settings (vars st0) record in
  call_next request st0 = (Ok response, st1) ->
  exists response' final,
    dispatch env self request call_next st = (Ok response', final)
    /\ d !! "trace_id" = Logging.JStr <$> resp_headers response' !! TRACE_ID_HEADER
    /\ d !! "request_id" = Logging.JStr <$> resp_headers response' !! REQUEST_ID_HEADER
    /\ is_Some (d !! "trace_id") /\ is_Some (d !! "request_id").
Proof.
  cbv zeta. intros Hc.
  destruct (bound_ids env self request st)
    as (tid & rid & t0 & sl & st0 & Hb & _ & _ & Gt & Gr & _).
  rewrite Hb in *. cbn [snd] in *.
  eexists _, _. split; [exact (dispatch_return _ _ _ _ _ _ _ _ _ _ _ _ Hb Hc) |].
  destruct (json_trace_fields fmt now settings (vars st0) record) as (-> & -> & _).
  destruct (attached_ids env self tid rid
              (format_ms env t0 (time_at env (ticks st1))) response) as [-> ->].
  rewrite Gt, Gr. simpl. eauto.
Qed.

End LogCorrelation.

(** ** Settings *)

Section SettingsFacts.

Lemma upper_char_idem c : Settings.upper_char (Settings.upper_char c) = Settings.upper_char c.
Proof. destruct c as [[] [] [] [] [] [] [] []]; reflexivity. Qed.

Lemma lower_char_idem c : Settings.lower_char (Settings.lower_char c) = Settings.lower_char c.
Proof. destruct c as [[] [] [] [] [] [] [] []]; reflexivity. Qed.

Lemma map_chars_idem f s :
  (forall c, f (f c) = f c) ->
  Settings.map_chars f (Settings.map_chars f s) = Settings.map_chars f s.
Proof. intros H. induction s as [|c r IH]; simpl; [reflexivity | now rewrite H, IH]. Qed.

(** X24.  Settings are normalised when read: the log level is in upper
    case and the log format in lower case whatever the environment
    spells, and the debug flag is on exactly for a [DEBUG] value that
    reads ["true"] in any mix of cases; a variable that is not set gives
    its default. *)
Theorem settings_normalised (getenv : string -> option string) :
  let s := Settings.from_env getenv in
  Settings.upper (Settings.log_level s) = Settings.log_level s
  /\ Settings.lower (Settings.log_format s) = Settings.log_format s
  /\ (Settings.debug s = true
      <-> exists v, getenv "DEBUG" = Some v /\ Settings.lower v = "true")
  /\ (getenv "LOG_LEVEL" = None -> Settings.log_level s = "INFO")
  /\ (getenv "LOG_FORMAT" = None -> Settings.log_format s = "json")
  /\ (getenv "ENVIRONMENT" = None -> Settings.environment s = "development").
Proof.
  cbv zeta. unfold Settings.from_env.
  cbn [Settings.log_level Settings.log_format Settings.debug Settings.environment].
  split; [apply map_chars_idem, upper_char_idem |].
  split; [apply map_chars_idem, lower_char_idem |].
  split; [| repeat split; intros ->; reflexivity].
  rewrite String.eqb_eq. destruct (getenv "DEBUG") as [v|]; cbv [from_option id].
  - split; [eauto | intros (w & [= ->] & H); exact H].
  - split; [discriminate | intros (w & [=] & _)].
Qed.

End SettingsFacts.

(** ** The further properties at work *)

Section MoreRuns.
Import Context World Middleware Client.

Lemma service_short_with_separator_recovered_witness :
  length (segments (Ids.generate_trace_id 1737034428 [] "my-service")) = 4%nat
  /\ field (Ids.parse_trace_id (Ids.generate_trace_id 1737034428 [] "my-service"))
       "service_short" = Some (VStr "my-service").
Proof.
  destruct (service_short_with_separator_recovered 1737034428 [] "my-service")
    as (L & S & _); [lia |].
  split; [exact L | exact S].
Defined.

Lemma parsed_timestamp_nonneg_witness :
  0 <= 10 /\ contains "-" "b" = false.
Proof.
  apply (parsed_timestamp_nonneg "+a-b-my-service" 10 "b");
    vm_compute; reflexivity.
Defined.

Lemma pre_epoch_id_does_not_parse_witness :
  Ids.parse_trace_id (Ids.generate_trace_id (-5) [] "svc")
  = Ok (Ids.invalid_result "-5--svc").
Proof.
  apply (pre_epoch_id_does_not_parse (-5) [] "svc"). lia.
Defined.

(** The timestamp text ["0x0A"] is re-rendered as ["a"]. *)
Lemma parse_rerender_stable_witness :
  Ids.parse_trace_id "a-b-my-service"
  = Ok {[ "timestamp" := VInt 10; "random" := VStr "b";
          "service_short" := VStr "my-service"; "valid" := VBool true ]}.
Proof.
  apply (parse_rerender_stable "0x0A-b-my-service" 10 "b" "my-service");
    vm_compute; reflexivity.
Defined.

Lemma generated_ids_injective_witness :
  Ids.generate_trace_id 1 [Byte.x01] "svc" <> Ids.generate_trace_id 1 [Byte.x02] "svc".
Proof.
  intros E.
  destruct (generated_ids_injective 1 1 [Byte.x01] [Byte.x02] "svc" "svc" "req")
    as [H _]; [lia | lia |].
  destruct (H E) as (_ & T & _). discriminate T.
Defined.

Lemma response_ids_match_context_witness :
  exists response' final,
    dispatch Sample.env Sample.mw Sample.request_upstream Sample.handler_ok
      Sample.start = (Ok response', final)
    /\ resp_headers response' !! TRACE_ID_HEADER = Some "upstream-trace-123"
    /\ resp_headers response' !! REQUEST_ID_HEADER = Some "test_0b30557a9fc4".
Proof.
  destruct (response_ids_match_context Sample.env Sample.mw Sample.request_upstream
              Sample.handler_ok Sample.start Sample.at_upstream_handler
              (mk_response 200 ∅ "ok"))
    as (response' & final & Hd & Ht & Hr & _); [vm_compute; reflexivity |].
  exists response', final. split; [exact Hd |]. split; [exact Ht | exact Hr].
Defined.

Lemma response_otherwise_untouched_witness :
  exists response' final,
    dispatch Sample.env Sample.mw Sample.request_upstream Sample.handler_ok
      Sample.start = (Ok response', final)
    /\ status_code response' = 200 /\ body response' = "ok".
Proof.
  destruct (response_otherwise_untouched Sample.env Sample.mw Sample.request_upstream
              Sample.handler_ok Sample.start Sample.at_upstream_handler
              (mk_response 200 ∅ "ok"))
    as (response' & final & Hd & Hs & Hbody & _); [vm_compute; reflexivity |].
  exists response', final. auto.
Defined.

(** A request to [/health], which is in the default skip set. *)
Lemma lifecycle_logging_witness :
  exists response' final,
    dispatch Sample.env Sample.mw Sample.request_error Sample.handler_ok
      Sample.start = (Ok response', final)
    /\ is_Some (resp_headers response' !! TRACE_ID_HEADER)
    /\ log final = [].
Proof.
  destruct (lifecycle_logging Sample.env Sample.mw Sample.request_error
              Sample.handler_ok Sample.start Sample.at_error_handler
              (mk_response 200 ∅ "ok"))
    as (response' & final & Hd & Ht & _ & Hq & _); [vm_compute; reflexivity |].
  exists response', final. split; [exact Hd |]. split; [exact Ht |].
  apply Hq. vm_compute. reflexivity.
Defined.

Lemma other_inbound_headers_ignored_witness :
  bind_context Sample.env Sample.mw
    (mk_request "GET" "/test" (<["X-Request-ID" := "from-client"]> ∅)) Sample.start
  = bind_context Sample.env Sample.mw Sample.request Sample.start.
Proof.
  apply (other_inbound_headers_ignored Sample.env Sample.mw Sample.request
           "X-Request-ID" "from-client" Sample.start); discriminate.
Defined.

(** [skip_paths=[]] and a request to [/health]. *)
Lemma middleware_defaults_witness :
  log (snd (dispatch Sample.env
              (init (getenv Sample.env) "test-service" None (Some []) true)
              Sample.request_error Sample.handler_ok Sample.start))
  = [].
Proof.
  destruct (middleware_defaults Sample.env "test-service" None true
              Sample.request_error Sample.handler_ok Sample.start
              Sample.at_error_handler (mk_response 200 ∅ "ok"))
    as (_ & L & _);
    [apply (bool_decide_unpack _); vm_compute; exact I | vm_compute; reflexivity |].
  rewrite L. reflexivity.
Defined.

Lemma base_exception_cleans_up_silently_witness :
  exists final,
    dispatch Sample.env Sample.mw Sample.request Sample.handler_cancelled Sample.start
    = (Raise (mk_exn CancelledError ""), final)
    /\ vars final = fresh
    /\ log final = [mk_log INFO "Request started: GET /test" None].
Proof.
  destruct (base_exception_cleans_up_silently Sample.env Sample.mw Sample.request
              Sample.handler_cancelled Sample.start
              (snd (bind_context Sample.env Sample.mw Sample.request Sample.start))
              (mk_exn CancelledError ""))
    as (final & Hd & Hv & Hl & _); [reflexivity | reflexivity |].
  exists final. split; [exact Hd |]. split; [exact Hv |]. rewrite Hl.
  vm_compute. reflexivity.
Defined.

Lemma log_records_carry_response_ids_witness :
  exists response' final,
    dispatch Sample.env Sample.mw Sample.request_upstream Sample.handler_ok
      Sample.start = (Ok response', final)
    /\ Logging.format_log_data (X := string)
         (Logging.mk_json_formatter "test-service" "0.1.0" "test" "unknown")
         "2025-01-16T13:33:48+00:00"
         (Settings.from_env (getenv Sample.env))
         (vars Sample.at_upstream_handler)
         (Logging.mk_record "INFO" "app" "hello" None None) !! "trace_id"
       = Logging.JStr <$> resp_headers response' !! TRACE_ID_HEADER.
Proof.
  destruct (log_records_carry_response_ids (X := string) Sample.env Sample.mw
              (Logging.mk_json_formatter "test-service" "0.1.0" "test" "unknown")
              "2025-01-16T13:33:48+00:00"
              (Settings.from_env (getenv Sample.env))
              (Logging.mk_record "INFO" "app" "hello" None None)
              Sample.request_upstream Sample.handler_ok Sample.start
              Sample.at_upstream_handler (mk_response 200 ∅ "ok"))
    as (response' & final & Hd & Ht & _); [vm_compute; reflexivity |].
  exists response', final. split; [exact Hd |].
  rewrite <- Ht. vm_compute. reflexivity.
Defined.

End MoreRuns.
